(** * dask_jobqueue.core: the JobQueueCluster adapter

    A shallow embedding of [src/dask_jobqueue/core.py].  The adapter object
    ([self.jobs], [self.n], the templates and the two scheduler commands) is
    a record; every method is a function in a state-and-exception monad that
    threads the adapter together with the trace of what the method did to
    the outside world (log lines, files, spawned processes).  Everything the
    code obtains from outside (temporary file names, what a spawned process
    prints, the order in which a Python set is iterated) is read from an
    environment [env], over which all statements quantify. *)

From Stdlib Require Import ZArith String Ascii Strings.Byte DecimalString.
From Stdlib Require DecimalZ.
From stdpp Require Import gmap strings list sorting.

Open Scope string_scope.
Open Scope Z_scope.
Open Scope list_scope.
Set Warnings "-register-all".

(** ** Python values and exceptions *)

(** The exceptions the modelled code can raise.  [NotModelled] is not a
    Python exception: it marks the inputs on which Python's behaviour is
    richer than this embedding (printf flags, widths, positional
    directives, the [repr] of containers), so that no statement below
    mistakes them for a modelled outcome. *)
Inductive exn : Type :=
| NotImplementedError
| KeyError
| IndexError
| ValueError
| TypeError
| AttributeError
| UnicodeDecodeError
| NotModelled.

Global Instance exn_eq_dec : EqDecision exn.
Proof. solve_decision. Defined.

Inductive res (A : Type) : Type :=
| Ok (a : A)
| Raise (e : exn).
Arguments Ok {A} a.
Arguments Raise {A} e.

Definition res_bind {A B} (r : res A) (k : A -> res B) : res B :=
  match r with
  | Ok a => k a
  | Raise e => Raise e
  end.

Definition res_map {A B} (f : A -> B) (r : res A) : res B :=
  res_bind r (fun a => Ok (f a)).

(** The Python values that reach the adapter's public methods.  A [str]
    is the [string] of its UTF-8 bytes; a [dict] is the list of its items in
    insertion order, with [str] keys. *)
Inductive pyval : Type :=
| PNone
| PInt (z : Z)
| PStr (s : string)
| PList (l : list pyval)
| PDict (d : list (string * pyval)).

(** Hashable values, the elements of a Python [set]. *)
Inductive hkey : Type :=
| HNone
| HInt (z : Z)
| HStr (s : string).

Global Instance hkey_eq_dec : EqDecision hkey.
Proof. solve_decision. Defined.

Definition hkey_val (h : hkey) : pyval :=
  match h with
  | HNone => PNone
  | HInt z => PInt z
  | HStr s => PStr s
  end.

(** [hash(v)]: lists and dicts are unhashable. *)
Definition py_hash (v : pyval) : res hkey :=
  match v with
  | PNone => Ok HNone
  | PInt z => Ok (HInt z)
  | PStr s => Ok (HStr s)
  | PList _ | PDict _ => Raise TypeError
  end.

(** ** Strings *)

Definition nl : string := String "010"%char EmptyString.

(** [str(z)] for an [int]. *)
Definition str_of_int (z : Z) : string := NilZero.string_of_int (Z.to_int z).

(** [sep.join(l)]. *)
Fixpoint join (sep : string) (l : list string) : string :=
  match l with
  | [] => ""
  | [x] => x
  | x :: r => x +:+ sep +:+ join sep r
  end.

(** [s.split(sep)] for a one-character separator: never empty. *)
Fixpoint split (sep : ascii) (s : string) : list string :=
  match s with
  | EmptyString => [EmptyString]
  | String c r =>
      if Ascii.eqb c sep then EmptyString :: split sep r
      else match split sep r with
           | hd :: tl => String c hd :: tl
           | [] => [String c EmptyString]
           end
  end.

(** [l[i]] with Python's negative indices. *)
Definition py_index {A} (l : list A) (i : Z) : res A :=
  let len := Z.of_nat (length l) in
  let j := if i <? 0 then i + len else i in
  if (j <? 0) || (len <=? j) then Raise IndexError
  else match l !! Z.to_nat j with
       | Some x => Ok x
       | None => Raise IndexError
       end.

(** Lookup in the items of a dict. *)
Fixpoint assoc {A} (k : string) (d : list (string * A)) : option A :=
  match d with
  | [] => None
  | (k', v) :: r => if String.eqb k k' then Some v else assoc k r
  end.

(** [bytes.decode()]: strict UTF-8.  The decoded text is represented by
    the very same bytes, so decoding is the validity check. *)
Definition bv (b : byte) : Z := Z.of_N (Byte.to_N b).

Definition in_range (lo hi : Z) (b : byte) : bool :=
  (lo <=? bv b) && (bv b <=? hi).

Definition cont (b : byte) : bool := in_range 0x80 0xBF b.

Definition second3 (b0 b1 : byte) : bool :=
  if bv b0 =? 0xE0 then in_range 0xA0 0xBF b1
  else if bv b0 =? 0xED then in_range 0x80 0x9F b1
  else cont b1.

Definition second4 (b0 b1 : byte) : bool :=
  if bv b0 =? 0xF0 then in_range 0x90 0xBF b1
  else if bv b0 =? 0xF4 then in_range 0x80 0x8F b1
  else cont b1.

Fixpoint utf8_valid (bs : list byte) : bool :=
  match bs with
  | [] => true
  | b0 :: r0 =>
      if bv b0 <? 0x80 then utf8_valid r0
      else if in_range 0xC2 0xDF b0 then
        match r0 with
        | b1 :: r1 => cont b1 && utf8_valid r1
        | _ => false
        end
      else if in_range 0xE0 0xEF b0 then
        match r0 with
        | b1 :: b2 :: r2 => second3 b0 b1 && cont b2 && utf8_valid r2
        | _ => false
        end
      else if in_range 0xF0 0xF4 b0 then
        match r0 with
        | b1 :: b2 :: b3 :: r3 =>
            second4 b0 b1 && cont b2 && cont b3 && utf8_valid r3
        | _ => false
        end
      else false
  end.

Definition decode (bs : list byte) : res string :=
  if utf8_valid bs then Ok (string_of_list_byte bs)
  else Raise UnicodeDecodeError.

(** [int(s)] for a [str]: surrounding whitespace, an optional sign,
    decimal digits with single underscores between them.  On ASCII text
    the whitespace [int] strips is tab to carriage return and the space;
    the separators [0x1C] to [0x1F], which [str.strip] removes, are not
    stripped and make [int] raise [ValueError].  Python also accepts
    non-ASCII whitespace and digits: these are answered [NotModelled].
    Recent interpreters refuse texts beyond a digit limit, which can be
    set but never below 640 digits; the limit is not modelled. *)
Definition is_space (c : ascii) : bool :=
  let k := Z.of_nat (nat_of_ascii c) in
  ((9 <=? k) && (k <=? 13)) || (k =? 32).

Definition digit_of (c : ascii) : option Z :=
  let k := Z.of_nat (nat_of_ascii c) in
  if (48 <=? k) && (k <=? 57) then Some (k - 48) else None.

Fixpoint lstrip (s : string) : string :=
  match s with
  | String c r => if is_space c then lstrip r else s
  | EmptyString => EmptyString
  end.

Fixpoint rstrip (s : string) : string :=
  match s with
  | String c r =>
      match rstrip r with
      | EmptyString => if is_space c then EmptyString else String c EmptyString
      | r' => String c r'
      end
  | EmptyString => EmptyString
  end.

(** [digits acc after_digit s]: the value of the digit string [s] read
    after the prefix of value [acc]; [after_digit] tells whether the previous
    character was a digit (an underscore must sit between two digits). *)
Fixpoint digits (acc : Z) (after_digit : bool) (s : string) : option Z :=
  match s with
  | EmptyString => if after_digit then Some acc else None
  | String c r =>
      match digit_of c with
      | Some d => digits (10 * acc + d) true r
      | None =>
          if Ascii.eqb c "_" && after_digit then digits acc false r else None
      end
  end.

Definition is_ascii_str (s : string) : bool :=
  forallb (fun c => Z.of_nat (nat_of_ascii c) <? 128) (list_ascii_of_string s).

Definition int_of_str (s : string) : res Z :=
  if negb (is_ascii_str s) then Raise NotModelled
  else
    let body := rstrip (lstrip s) in
    let (neg, ds) :=
      match body with
      | String "-" r => (true, r)
      | String "+" r => (false, r)
      | _ => (false, body)
      end in
    match digits 0 false ds with
    | Some v => Ok (if neg then - v else v)
    | None => Raise ValueError
    end.

(** [int(v)]. *)
Definition py_int (v : pyval) : res Z :=
  match v with
  | PInt z => Ok z
  | PStr s => int_of_str s
  | PNone | PList _ | PDict _ => Raise TypeError
  end.

(** ** Printf-style formatting with a mapping: [template % {...}]

    The scanner follows CPython's left to right pass.  It renders the
    directives the adapter's own templates use: [%%], [%(key)s] and
    [%(key)d] (or [i]).  A directive without a key, or with flags, width,
    precision or another conversion, is [NotModelled]. *)
Inductive fmt_mode : Type :=
| Text
| Pct
| Key (depth : nat) (k : string)
| Conv (v : pyval).

Definition render (c : ascii) (v : pyval) : res string :=
  if Ascii.eqb c "s" then
    match v with
    | PStr s => Ok s
    | PInt z => Ok (str_of_int z)
    | PNone => Ok "None"
    | PList _ | PDict _ => Raise NotModelled
    end
  else if Ascii.eqb c "d" || Ascii.eqb c "i" then
    match v with
    | PInt z => Ok (str_of_int z)
    | PNone | PStr _ | PList _ | PDict _ => Raise TypeError
    end
  else Raise NotModelled.

Fixpoint fmt (d : list (string * pyval)) (m : fmt_mode) (s : string)
  : res string :=
  match s with
  | EmptyString =>
      match m with
      | Text => Ok EmptyString
      | Pct | Key _ _ | Conv _ => Raise ValueError
      end
  | String c r =>
      match m with
      | Text =>
          if Ascii.eqb c "%" then fmt d Pct r
          else res_map (String c) (fmt d Text r)
      | Pct =>
          if Ascii.eqb c "%" then res_map (String "%") (fmt d Text r)
          else if Ascii.eqb c "(" then fmt d (Key 0 EmptyString) r
          else Raise NotModelled
      | Key depth k =>
          if Ascii.eqb c ")" then
            match depth with
            | O =>
                match assoc k d with
                | Some v => fmt d (Conv v) r
                | None => Raise KeyError
                end
            | S depth' => fmt d (Key depth' (k +:+ ")")) r
            end
          else if Ascii.eqb c "(" then fmt d (Key (S depth) (k +:+ "(")) r
          else fmt d (Key depth (k +:+ String c EmptyString)) r
      | Conv v =>
          res_bind (render c v)
            (fun t => res_map (String.append t) (fmt d Text r))
      end
  end.

Definition py_format (template : string) (d : list (string * pyval))
  : res string :=
  fmt d Text template.

(** [os.path.join(a, b)] on a POSIX system. *)
Definition ends_with_slash (a : string) : bool :=
  match last (list_ascii_of_string a) with
  | Some c => Ascii.eqb c "/"
  | None => false
  end.

Definition path_join (a b : string) : string :=
  match b with
  | String "/" _ => b
  | _ =>
      if String.eqb a "" || ends_with_slash a then a +:+ b
      else a +:+ "/" +:+ b
  end.

(** ** The adapter object and the outside world *)

(** What a method does to the outside world, oldest event first. *)
Inductive event : Type :=
| LogDebug (msg : string)
| LogError (msg : string)
| FileOpen (fn : string)
| FileWrite (fn : string) (text : string)
| FileRemove (fn : string)
| Spawn (argv : list string).

(** The argument vectors of the processes a trace started, in order. *)
Definition spawns (tr : list event) : list (list string) :=
  flat_map (fun ev => match ev with Spawn argv => [argv] | _ => [] end) tr.

(** What [proc.communicate()] returns for a spawned process. *)
Record proc : Type := { stdout : list byte; stderr : list byte }.

(** The collaborators: [tmpfile] names the temporary file handed out by
    [distributed.utils.tmpfile], [popen] is the process [subprocess.Popen]
    starts for an argument vector, both given the trace so far; [set_iter]
    is the order in which Python iterates a set with the given elements.

    [distributed.utils.tmpfile] is defined outside this repository.  It
    removes its file when the block under [with] ends normally;
    [tmpfile_guards] tells whether it also does so when the block raises
    (whether its [yield] sits in a [try ... finally]).  Nothing in
    [job_file] itself removes the file, so both behaviours are kept.

    [popen] is the process of a command that could be started: the
    development covers the runs in which every [subprocess.Popen] call
    returns, and in which creating, opening and writing the temporary
    file succeed.  A command that cannot be started makes [Popen] raise
    (an [OSError]) after the debug lines were logged; these runs have no
    counterpart here: the statements below are about what the adapter
    does with what the tools print, or bound what a call can do. *)
Record env : Type := {
  tmpfile : list event -> string;
  tmpfile_guards : bool;
  popen : list event -> list string -> proc;
  set_iter : list hkey -> list hkey
}.

(** The instance attributes of a [JobQueueCluster]; [submit_command] and
    [cancel_command] are the class attributes of the concrete subclass. *)
Record adapter : Type := {
  submit_command : string;
  cancel_command : string;
  job_header : option string;
  _command_template : string;
  jobs : gmap Z string;
  n : Z
}.

Definition set_n (a : adapter) (v : Z) : adapter :=
  {| submit_command := submit_command a;
     cancel_command := cancel_command a;
     job_header := job_header a;
     _command_template := _command_template a;
     jobs := jobs a;
     n := v |}.

Definition set_jobs (a : adapter) (m : gmap Z string) : adapter :=
  {| submit_command := submit_command a;
     cancel_command := cancel_command a;
     job_header := job_header a;
     _command_template := _command_template a;
     jobs := m;
     n := n a |}.

Definition set_job_header (a : adapter) (h : option string) : adapter :=
  {| submit_command := submit_command a;
     cancel_command := cancel_command a;
     job_header := h;
     _command_template := _command_template a;
     jobs := jobs a;
     n := n a |}.

Record state : Type := { self : adapter; trace : list event }.

(** ** The monad of methods: state that survives an exception *)

Definition M (A : Type) : Type := state -> state * res A.

Definition ret {A} (a : A) : M A := fun st => (st, Ok a).

Definition raise {A} (e : exn) : M A := fun st => (st, Raise e).

Definition bind {A B} (m : M A) (k : A -> M B) : M B :=
  fun st =>
    match m st with
    | (st', Ok a) => k a st'
    | (st', Raise e) => (st', Raise e)
    end.

Declare Scope method_scope.
Delimit Scope method_scope with method.
Notation "x <- m ;; k" := (bind m (fun x => k))
  (at level 100, m at next level, right associativity) : method_scope.
Notation "m ;; k" := (bind m (fun _ => k))
  (at level 100, right associativity) : method_scope.
Open Scope method_scope.

Definition lift {A} (r : res A) : M A := fun st => (st, r).

Definition get_self : M adapter := fun st => (st, Ok (self st)).

Definition put_self (a : adapter) : M unit :=
  fun st => ({| self := a; trace := trace st |}, Ok tt).

Definition get_trace : M (list event) := fun st => (st, Ok (trace st)).

Definition emit (ev : event) : M unit :=
  fun st => ({| self := self st; trace := trace st ++ [ev] |}, Ok tt).

(** [try: m finally: cleanup]. *)
Definition finally {A} (m : M A) (cleanup : M unit) : M A :=
  fun st =>
    match m st with
    | (st', r) =>
        match cleanup st' with
        | (st'', Ok _) => (st'', r)
        | (st'', Raise e) => (st'', Raise e)
        end
    end.

(** [with cm: m] for a generator-based context manager whose exit step
    is [cleanup].  The exit step runs when [m] ends normally; when [m]
    raises, it runs only if the manager [guards] its block. *)
Definition scoped {A} (guards : bool) (m : M A) (cleanup : M unit) : M A :=
  if guards then finally m cleanup
  else (r <- m ;; cleanup ;; ret r).

(** [with ignoring(e): m], from [distributed.utils]. *)
Definition ignoring (e : exn) (m : M unit) : M unit :=
  fun st =>
    match m st with
    | (st', Raise e') =>
        if decide (e' = e) then (st', Ok tt) else (st', Raise e')
    | other => other
    end.

(** [for x in l: body x]. *)
Fixpoint for_each {A} (l : list A) (body : A -> M unit) : M unit :=
  match l with
  | [] => ret tt
  | x :: r => body x ;; for_each r body
  end.

(** A comprehension whose element expression cannot touch the state. *)
Fixpoint map_res {A B} (f : A -> res B) (l : list A) : res (list B) :=
  match l with
  | [] => Ok []
  | x :: r =>
      res_bind (f x) (fun y => res_map (cons y) (map_res f r))
  end.

(** ** The methods of [JobQueueCluster] *)

(** The class attribute [_script_template]. *)
Definition _script_template : string :=
  lstrip (nl +:+ "#!/bin/bash" +:+ nl +:+ nl +:+ "%(job_header)s" +:+ nl
          +:+ nl +:+ "%(worker_command)s" +:+ nl).

(** Truth value of an attribute that is [None] or a [str]. *)
Definition truthy (o : option string) : bool :=
  match o with
  | Some s => negb (String.eqb s "")
  | None => false
  end.

(** The keyword arguments of [__init__]; [death_timeout] is an [int]
    here (the rendering of a [float] is not modelled). *)
Record init_args : Type := {
  name : option string;
  threads : option Z;
  processes : option Z;
  memory : option string;
  interface : option string;
  death_timeout : option Z;
  local_directory : option string;
  extra : option string
}.

(** The defaults of the signature of [__init__]. *)
Definition default_args : init_args :=
  {| name := Some "dask-worker"; threads := Some 4; processes := Some 6;
     memory := Some "16GB"; interface := None; death_timeout := Some 60;
     local_directory := None; extra := Some "" |}.

(** [tpl += pre % v] when [v is not None]. *)
Definition add_opt {A} (pre : string) (show : A -> string) (o : option A)
    (tpl : string) : string :=
  match o with
  | Some v => tpl +:+ pre +:+ show v
  | None => tpl
  end.

(** Lines 102 to 117: the worker command line, with [%(n)d] kept for
    [job_script].  [dirname] is the directory of the Python executable and
    [address] the scheduler address of the local cluster. *)
Definition command_template (dirname address : string) (a : init_args)
    (extra' : option string) : string :=
  let t := path_join dirname ("dask-worker " +:+ address) in
  let t := add_opt " --nthreads " str_of_int (threads a) t in
  let t := add_opt " --nprocs " str_of_int (processes a) t in
  let t := add_opt " --memory-limit " id (memory a) t in
  let t := match name a with
           | Some nm => (t +:+ " --name " +:+ nm) +:+ "-%(n)d"
           | None => t
           end in
  let t := add_opt " --death-timeout " str_of_int (death_timeout a) t in
  let t := add_opt " --local-directory " id (local_directory a) t in
  add_opt "" id extra' t.

(** [__init__], for a class whose attributes [submit_command] and
    [cancel_command] are [submit] and [cancel] ([None] in the base
    class).

    The constructor calls two collaborators defined outside this
    repository: [get_ip_interface(interface)], before [extra] is
    extended, and [LocalCluster(...)], after it.  [__init__] is the
    constructor in the runs in which both return, [address] being the
    scheduler address of the cluster that [LocalCluster] built; a run in
    which one of them raises (an unknown interface, say) builds no
    adapter and has no counterpart here.  The statements below speak of
    the adapters that were built, or of the check on the two commands,
    which comes first. *)
Definition __init__ (submit cancel : option string)
    (dirname address : string) (a : init_args) : res adapter :=
  if negb (truthy cancel) || negb (truthy submit) then
    Raise NotImplementedError
  else
    res_bind
      (if truthy (interface a) then
         match extra a with
         | Some e =>
             Ok (Some (e +:+ " --interface  " +:+ default "" (interface a)
                         +:+ " "))
         | None => Raise TypeError
         end
       else Ok (extra a))
      (fun extra' =>
         Ok {| submit_command := default "" submit;
               cancel_command := default "" cancel;
               job_header := None;
               _command_template := command_template dirname address a extra';
               jobs := ∅;
               n := 0 |}).

(** [job_script]: the counter moves first, then the two templates are
    filled. *)
Definition header_val (h : option string) : pyval :=
  match h with
  | Some t => PStr t
  | None => PNone
  end.

Definition job_script : M string :=
  a <- get_self ;;
  put_self (set_n a (n a + 1)) ;;
  a <- get_self ;;
  worker_command <-
    lift (py_format (_command_template a) [("n", PInt (n a))]) ;;
  lift (py_format _script_template
          [("job_header", header_val (job_header a));
           ("worker_command", PStr worker_command)]).

Section Methods.

Variable E : env.

(** [job_file], a context manager: [body] is the block under [with].
    The method has no exception handling of its own: an exception of
    [job_script] or of [body] travels through [tmpfile], whose exit step
    is the only place where the file is removed. *)
Definition job_file {A} (body : string -> M A) : M A :=
  tr <- get_trace ;;
  let fn := tmpfile E tr in
  scoped (tmpfile_guards E)
    (emit (FileOpen fn) ;;
     text <- job_script ;;
     emit (FileWrite fn text) ;;
     body fn)
    (emit (FileRemove fn)).

(** [_calls]: every process is started before any is waited for.
    [spawn] is one [subprocess.Popen(cmd, ...)] that returns. *)
Definition spawn (cmd : list string) : M proc :=
  tr <- get_trace ;;
  emit (Spawn cmd) ;;
  ret (popen E tr cmd).

Fixpoint spawn_all (cmds : list (list string)) : M (list proc) :=
  match cmds with
  | [] => ret []
  | cmd :: r =>
      p <- spawn cmd ;;
      ps <- spawn_all r ;;
      ret (p :: ps)
  end.

Definition communicate (p : proc) : M (list byte) :=
  match stderr p with
  | [] => ret (stdout p)
  | _ :: _ =>
      msg <- lift (decode (stderr p)) ;;
      emit (LogError msg) ;;
      ret (stdout p)
  end.

Fixpoint communicate_all (procs : list proc) : M (list (list byte)) :=
  match procs with
  | [] => ret []
  | p :: r =>
      out <- communicate p ;;
      outs <- communicate_all r ;;
      ret (out :: outs)
  end.

Definition _calls (cmds : list (list string)) : M (list (list byte)) :=
  emit (LogDebug "Submitting the following calls to command line") ;;
  for_each cmds (fun cmd => emit (LogDebug (join " " cmd))) ;;
  procs <- spawn_all cmds ;;
  communicate_all procs.

Definition _call (cmd : list string) : M (list byte) :=
  outs <- _calls [cmd] ;;
  lift (py_index outs 0).

(** One round of the loop of [start_workers]. *)
Definition start_one (workers : list Z) : M (list Z) :=
  job_file (fun fn =>
    a <- get_self ;;
    out <- _call [submit_command a; fn] ;;
    text <- lift (decode out) ;;
    job <- lift (py_index (split "." text) 0) ;;
    a <- get_self ;;
    put_self (set_jobs a (<[n a := job]> (jobs a))) ;;
    ret (workers ++ [n a])).

Fixpoint start_loop (k : nat) (workers : list Z) : M (list Z) :=
  match k with
  | O => ret workers
  | S k' =>
      workers' <- start_one workers ;;
      start_loop k' workers'
  end.

(** [start_workers(count)]; [range(count)] is empty for [count <= 0]. *)
Definition start_workers (count : Z) : M (list Z) :=
  start_loop (Z.to_nat count) [].

(** [self.jobs[w]] and [del self.jobs[w]]. *)
Definition job_of (m : gmap Z string) (w : Z) : res string :=
  match m !! w with
  | Some j => Ok j
  | None => Raise KeyError
  end.

Definition del_job (w : Z) : M unit :=
  a <- get_self ;;
  match jobs a !! w with
  | Some _ => put_self (set_jobs a (delete w (jobs a)))
  | None => raise KeyError
  end.

(** [stop_workers(workers)]: [workers] is the sequence the iterable
    yields. *)
Definition stop_workers (workers : list pyval) : M unit :=
  match workers with
  | [] => ret tt
  | _ :: _ =>
      ws <- lift (map_res py_int workers) ;;
      a <- get_self ;;
      js <- lift (map_res (job_of (jobs a)) ws) ;;
      _call (cancel_command a :: js) ;;
      for_each ws (fun w => ignoring KeyError (del_job w))
  end.

Definition scale_up (target : Z) : M (list Z) :=
  a <- get_self ;;
  start_workers (target - Z.of_nat (size (jobs a))).

(** [v['name']]. *)
Definition get_name (v : pyval) : res pyval :=
  match v with
  | PDict d =>
      match assoc "name" d with
      | Some x => Ok x
      | None => Raise KeyError
      end
  | PNone | PInt _ | PStr _ | PList _ => Raise TypeError
  end.

(** [name.split('-')[-2]]. *)
Definition job_id_of (name : hkey) : res hkey :=
  match name with
  | HStr s => res_map HStr (py_index (split "-" s) (-2))
  | HNone | HInt _ => Raise AttributeError
  end.

(** The two set comprehensions of [scale_down]; a set is the duplicate
    free list of its elements and is iterated in the order [set_iter]. *)
Definition names_of (d : list (string * pyval)) : res (list hkey) :=
  res_map remove_dups
    (map_res (fun v => res_bind (get_name v) py_hash) (map snd d)).

Definition job_ids_of (names : list hkey) : res (list hkey) :=
  res_map remove_dups (map_res job_id_of (set_iter E names)).

Definition scale_down (workers : pyval) : M unit :=
  match workers with
  | PDict d =>
      names <- lift (names_of d) ;;
      job_ids <- lift (job_ids_of names) ;;
      stop_workers (map hkey_val (set_iter E job_ids))
  | PNone | PInt _ | PStr _ | PList _ => ret tt
  end.

(** The slots [base+1, ..., base+k]. *)
Fixpoint slots_from (base : Z) (k : nat) : list Z :=
  match k with
  | O => []
  | S k' => (base + 1) :: slots_from (base + 1) k'
  end.

(** ** A history of calls on one adapter

    The caller may catch an exception and go on using the adapter, so a
    history runs every call from the state the previous one left.  It
    collects the lists that [start_workers] returned. *)
Inductive call : Type :=
| StartWorkers (count : Z)
| StopWorkers (workers : list pyval)
| ScaleUp (target : Z)
| ScaleDown (workers : pyval)
| JobScript.

Definition returned {A} (r : res A) : list A :=
  match r with
  | Ok a => [a]
  | Raise _ => []
  end.

Definition run_call (c : call) (st : state) : state * list (list Z) :=
  match c with
  | StartWorkers count =>
      let (st', r) := start_workers count st in (st', returned r)
  | StopWorkers ws => (fst (stop_workers ws st), [])
  | ScaleUp target =>
      let (st', r) := scale_up target st in (st', returned r)
  | ScaleDown ws => (fst (scale_down ws st), [])
  | JobScript => (fst (job_script st), [])
  end.

Fixpoint run (cs : list call) (st : state) : state * list (list Z) :=
  match cs with
  | [] => (st, [])
  | c :: r =>
      let (st1, out1) := run_call c st in
      let (st2, out2) := run r st1 in
      (st2, out1 ++ out2)
  end.

End Methods.

(** The number of direct [job_script()] calls in a history. *)
Fixpoint bare_renderings (cs : list call) : nat :=
  match cs with
  | [] => O
  | JobScript :: r => S (bare_renderings r)
  | _ :: r => bare_renderings r
  end.

(** ** Texts the statements speak about *)

(** The script: header and command joined by a blank line inside the
    fixed frame. *)
Definition boilerplate (header command : string) : string :=
  "#!/bin/bash" +:+ nl +:+ nl +:+ header +:+ nl +:+ nl +:+ command +:+ nl.

(** [str(job_header)]. *)
Definition str_of_header (h : option string) : string :=
  match h with
  | Some t => t
  | None => "None"
  end.

(** A text without the character that starts a directive. *)
Fixpoint pct_free (s : string) : bool :=
  match s with
  | EmptyString => true
  | String c r => negb (Ascii.eqb c "%") && pct_free r
  end.

Definition opt_free (o : option string) : bool :=
  match o with
  | Some s => pct_free s
  | None => true
  end.

(** The texts that [__init__] pastes into the command template. *)
Definition plain_args (dirname address : string) (a : init_args)
    (extra' : option string) : bool :=
  pct_free dirname && pct_free address && opt_free (memory a)
  && opt_free (name a) && opt_free (local_directory a) && opt_free extra'.

(** Number of positions of [s] at which [pat] starts. *)
Fixpoint occurrences (pat s : string) : nat :=
  ((if String.prefix pat s then 1 else 0)
   + match s with
     | EmptyString => 0
     | String _ r => occurrences pat r
     end)%nat.


(** The mapping [{"w1": {"name": "dask-worker-42-abc"}}]. *)
Definition example_workers : pyval :=
  PDict [("w1", PDict [("name", PStr "dask-worker-42-abc")])].

(** ** Concrete worlds used by the examples *)

(** The registry of the end-to-end example, [{1: "101", 2: "102"}]. *)
Definition two_jobs : gmap Z string := {[1 := "101"; 2 := "102"]}.

(** A PBS-like scheduler: the k-th process started prints
    [<100+k>.headnode] and nothing on stderr; sets are iterated in
    insertion order; [tmpfile] does not guard its block. *)
Definition pbs : env :=
  {| tmpfile := fun tr =>
       "/tmp/job" +:+ str_of_int (Z.of_nat (length tr)) +:+ ".sh";
     tmpfile_guards := false;
     popen := fun tr _ =>
       {| stdout := list_byte_of_string
                      (str_of_int (101 + Z.of_nat (length (spawns tr)))
                       +:+ ".headnode");
          stderr := [] |};
     set_iter := fun l => l |}.

(** A scheduler whose submit tool prints a byte that is not UTF-8. *)
Definition garbled : env :=
  {| tmpfile := tmpfile pbs;
     tmpfile_guards := false;
     popen := fun _ _ => {| stdout := [xff]; stderr := [] |};
     set_iter := fun l => l |}.


(** A scheduler that prints the job identifier on stdout and a Latin-1
    warning (one byte [0xE9]) on stderr. *)
Definition latin1 : env :=
  {| tmpfile := tmpfile pbs;
     tmpfile_guards := false;
     popen := fun tr argv =>
       {| stdout := stdout (popen pbs tr argv); stderr := [xe9] |};
     set_iter := fun l => l |}.

(** A scheduler whose tools always print the same identifier and never
    complain, with a [tmpfile] that guards its block. *)
Definition steady : env :=
  {| tmpfile := tmpfile pbs;
     tmpfile_guards := true;
     popen := fun _ _ =>
       {| stdout := list_byte_of_string "4242.headnode"; stderr := [] |};
     set_iter := fun l => l |}.

(** A PBS adapter as its constructor leaves it, with the header a
    subclass installs afterwards. *)
Definition fresh (header : option string) (tpl : string) : adapter :=
  {| submit_command := "qsub"; cancel_command := "qdel";
     job_header := header; _command_template := tpl;
     jobs := ∅; n := 0 |}.

Definition default_template : string :=
  command_template "/usr/bin" "tcp://10.0.0.5:8786" default_args (Some "").

Definition st0 (a : adapter) : state := {| self := a; trace := [] |}.

(** Constructor arguments without a worker name. *)
Definition unnamed_args : init_args :=
  {| name := None; threads := Some 4; processes := Some 6;
     memory := Some "8GB"; interface := None; death_timeout := Some 60;
     local_directory := None; extra := Some "" |}.

(** ** Notions used by the statements *)

(** [logged st tr']: the state [st] after the events [tr'], the adapter
    untouched. *)
Definition logged (st : state) (tr' : list event) : state :=
  {| self := self st; trace := trace st ++ tr' |}.

(** The registry after the clean-up loop over [ws]. *)
Definition removed (ws : list Z) (m : gmap Z string) : gmap Z string :=
  foldl (fun acc w => delete w acc) m ws.

(** The script a call renders, as a function of the adapter after the
    counter moved. *)
Definition rendered (a : adapter) : res string :=
  res_bind (py_format (_command_template a) [("n", PInt (n a))])
    (fun cmd =>
       py_format _script_template
         [("job_header", header_val (job_header a));
          ("worker_command", PStr cmd)]).

(** The state once the counter has moved by one. *)
Definition minted (st : state) : state :=
  {| self := set_n (self st) (n (self st) + 1); trace := trace st |}.

(** [between lo hi l]: [l] is strictly increasing and lies in [(lo, hi]]. *)
Definition between (lo hi : Z) (l : list Z) : Prop :=
  StronglySorted Z.lt l /\ Forall (fun x => lo < x <= hi) l.

(** The part of the template before the worker name. *)
Definition stem (dirname address : string) (a : init_args) : string :=
  add_opt " --memory-limit " id (memory a)
    (add_opt " --nprocs " str_of_int (processes a)
       (add_opt " --nthreads " str_of_int (threads a)
          (path_join dirname ("dask-worker " +:+ address)))).

(** The part of the template after the placeholder. *)
Definition tail_opts (a : init_args) (extra' : option string) : string :=
  add_opt "" id extra'
    (add_opt " --local-directory " id (local_directory a)
       (add_opt " --death-timeout " str_of_int (death_timeout a) "")).


(** ** Teardown and further observations *)

(** [__exit__]: every slot still tracked is stopped in one batch
    ([stop_workers(self.jobs)] iterates the keys of the dict; [dict_iter]
    is the order in which Python yields them).  The exit of the local
    cluster, which follows, does not touch the adapter and is left to that
    collaborator. *)
Definition __exit__ (E : env) (dict_iter : gmap Z string -> list Z)
  : M unit :=
  a <- get_self ;;
  stop_workers E (map PInt (dict_iter (jobs a))).

(** The messages logged as errors, the files opened and the files
    removed along a trace, in order. *)
Definition errors (tr : list event) : list string :=
  flat_map (fun ev => match ev with LogError m => [m] | _ => [] end) tr.

Definition opened (tr : list event) : list string :=
  flat_map (fun ev => match ev with FileOpen fn => [fn] | _ => [] end) tr.

Definition deleted (tr : list event) : list string :=
  flat_map (fun ev => match ev with FileRemove fn => [fn] | _ => [] end) tr.

(** The scripts a trace wrote into files, in order. *)
Definition written (tr : list event) : list string :=
  flat_map (fun ev => match ev with FileWrite _ text => [text] | _ => [] end)
    tr.

(** The events [_calls] leaves when it is given [cmds] and logs the
    error messages [msgs]: the banner, one debug line per command, one
    process start per command, then the error lines. *)
Definition calls_trace (cmds : list (list string)) (msgs : list string)
  : list event :=
  [LogDebug "Submitting the following calls to command line"]
  ++ map (fun cmd => LogDebug (join " " cmd)) cmds
  ++ map Spawn cmds
  ++ map LogError msgs.

(** What [_calls] logs as an error for a finished process: its
    diagnostic output, when there is one. *)
Definition complaint (p : proc) : list string :=
  match stderr p with
  | [] => []
  | _ :: _ => [string_of_list_byte (stderr p)]
  end.

(** A text without a dot. *)
Fixpoint dot_free (s : string) : bool :=
  match s with
  | EmptyString => true
  | String c r => negb (Ascii.eqb c ".") && dot_free r
  end.

(** A text without the character [c]. *)
Fixpoint lacks (c : ascii) (s : string) : bool :=
  match s with
  | EmptyString => true
  | String c' r => negb (Ascii.eqb c' c) && lacks c r
  end.

(** A worker descriptor that reports the name [nm]. *)
Definition names (v : pyval) (nm : string) : Prop :=
  exists d, v = PDict d /\ assoc "name" d = Some (PStr nm).

(** The bookkeeping invariant: the counter is not negative, every
    registered slot was minted (it lies in [(0, n]]) and every registered
    job is a text without a dot. *)
Definition consistent (a : adapter) : Prop :=
  0 <= n a
  /\ forall w j, jobs a !! w = Some j -> 0 < w <= n a /\ dot_free j = true.

(** A scheduler whose tools only print valid UTF-8. *)
Definition decodable (E : env) : Prop :=
  forall tr argv,
    utf8_valid (stdout (popen E tr argv)) = true
    /\ utf8_valid (stderr (popen E tr argv)) = true.

(** An adapter whose command template renders for every slot number. *)
Definition renders (a : adapter) : Prop :=
  forall z, exists t, py_format (_command_template a) [("n", PInt z)] = Ok t.

(** The adapter with every field but the registry and the counter. *)
Definition same_configuration (a b : adapter) : Prop :=
  submit_command a = submit_command b
  /\ cancel_command a = cancel_command b
  /\ job_header a = job_header b
  /\ _command_template a = _command_template b.

(** [scripts_for a slots texts]: the texts are, one by one, the scripts
    that the configuration of [a] renders for the slot numbers
    [slots]. *)
Definition scripts_for (a : adapter) (slots : list Z) (texts : list string)
  : Prop :=
  Forall2 (fun z text => rendered (set_n a z) = Ok text) slots texts.

(** * Properties *)

(** ** The state is a pair of records: extensionality *)

Lemma adapter_eta (a : adapter) : set_jobs a (jobs a) = a.
Proof. by destruct a. Qed.

Lemma state_eta (st : state) : {| self := self st; trace := trace st |} = st.
Proof. by destruct st. Qed.

Lemma spawns_app (t1 t2 : list event) : spawns (t1 ++ t2) = spawns t1 ++ spawns t2.
Proof. unfold spawns. by rewrite flat_map_app. Qed.

(** ** Running a method: the two laws of [bind] *)

Lemma bind_ok {A B} (m : M A) (k : A -> M B) st st' a :
  m st = (st', Ok a) -> bind m k st = k a st'.
Proof. intros H. unfold bind. by rewrite H. Qed.

Lemma bind_raise {A B} (m : M A) (k : A -> M B) st st' e :
  m st = (st', Raise e) -> bind m k st = (st', Raise e).
Proof. intros H. unfold bind. by rewrite H. Qed.

Lemma logged_nil st : logged st [] = st.
Proof. unfold logged. by rewrite app_nil_r, state_eta. Qed.

Lemma logged_logged st t1 t2 : logged (logged st t1) t2 = logged st (t1 ++ t2).
Proof. unfold logged. cbn. by rewrite app_assoc. Qed.

Lemma emit_logged ev st : emit ev st = (logged st [ev], Ok tt).
Proof. done. Qed.

(** ** The command runner *)

Section Runner.

Variable E : env.

Lemma spawn_all_spec cmds st :
  exists ps tr',
    spawn_all E cmds st = (logged st tr', Ok ps)
    /\ spawns tr' = cmds
    /\ Forall2 (fun cmd p => exists tr, p = popen E tr cmd) cmds ps.
Proof.
  revert st. induction cmds as [|cmd r IH]; intros st.
  - exists [], []. cbn. rewrite logged_nil. by repeat split.
  - destruct (IH (logged st [Spawn cmd])) as (ps & tr' & Heq & Hsp & Hall).
    exists (popen E (trace st) cmd :: ps), (Spawn cmd :: tr').
    split; [| split].
    + cbn [spawn_all].
      erewrite bind_ok; [| unfold spawn; erewrite bind_ok by reflexivity;
                           erewrite bind_ok by apply emit_logged; reflexivity].
      erewrite bind_ok by exact Heq. by rewrite logged_logged.
    + cbn. f_equal. exact Hsp.
    + constructor; [by exists (trace st) | done].
Qed.

Lemma log_cmds_spec (cmds : list (list string)) st :
  exists tr',
    for_each cmds (fun cmd => emit (LogDebug (join " " cmd))) st
    = (logged st tr', Ok tt)
    /\ spawns tr' = [].
Proof.
  revert st. induction cmds as [|cmd r IH]; intros st.
  - exists []. cbn. by rewrite logged_nil.
  - destruct (IH (logged st [LogDebug (join " " cmd)])) as (tr' & Heq & Hsp).
    exists (LogDebug (join " " cmd) :: tr'). split; [| done].
    cbn [for_each]. erewrite bind_ok by apply emit_logged.
    by rewrite Heq, logged_logged.
Qed.

(** Waiting never starts a process and never touches the adapter; it
    fails only on a diagnostic output that does not decode. *)
Lemma communicate_spec p st :
  exists tr',
    spawns tr' = []
    /\ (communicate p st = (logged st tr', Ok (stdout p))
        \/ (communicate p st = (logged st tr', Raise UnicodeDecodeError)
            /\ utf8_valid (stderr p) = false)).
Proof.
  unfold communicate. destruct (stderr p) as [|b bs] eqn:Herr.
  - exists []. rewrite logged_nil. auto.
  - destruct (utf8_valid (b :: bs)) eqn:Hv.
    + exists [LogError (string_of_list_byte (b :: bs))]. split; [done | left].
      erewrite bind_ok; [| unfold lift, decode; by rewrite Hv].
      by erewrite bind_ok by apply emit_logged.
    + exists []. split; [done | right]. split; [| done].
      erewrite bind_raise; [| unfold lift, decode; by rewrite Hv].
      by rewrite logged_nil.
Qed.

Lemma communicate_all_spec ps st :
  exists tr',
    spawns tr' = []
    /\ (communicate_all ps st = (logged st tr', Ok (map stdout ps))
        \/ (communicate_all ps st = (logged st tr', Raise UnicodeDecodeError)
            /\ Exists (fun p => utf8_valid (stderr p) = false) ps)).
Proof.
  revert st. induction ps as [|p r IH]; intros st.
  - exists []. rewrite logged_nil. auto.
  - cbn [communicate_all].
    destruct (communicate_spec p st) as (t1 & Hsp & [H1 | [H1 Hbad]]).
    + destruct (IH (logged st t1)) as (t2 & Hsp2 & [H2 | [H2 Hbad]]);
        exists (t1 ++ t2); (split; [by rewrite spawns_app, Hsp, Hsp2 |]).
      * left. erewrite bind_ok by exact H1. erewrite bind_ok by exact H2.
        by rewrite logged_logged.
      * right. split; [| by constructor].
        erewrite bind_ok by exact H1. erewrite bind_raise by exact H2.
        by rewrite logged_logged.
    + exists t1. split; [done | right]. split; [| by constructor].
      by erewrite bind_raise by exact H1.
Qed.

(** [_calls] starts exactly the commands it is given, in order, whatever
    happens afterwards, and leaves the adapter alone. *)
Lemma _calls_spec cmds st :
  exists tr',
    spawns tr' = cmds
    /\ ((exists ps, _calls E cmds st = (logged st tr', Ok (map stdout ps))
                    /\ Forall2 (fun cmd p => exists tr, p = popen E tr cmd) cmds ps)
        \/ (exists ps, _calls E cmds st = (logged st tr', Raise UnicodeDecodeError)
                    /\ Forall2 (fun cmd p => exists tr, p = popen E tr cmd) cmds ps
                    /\ Exists (fun p => utf8_valid (stderr p) = false) ps)).
Proof.
  unfold _calls.
  set (ev := LogDebug "Submitting the following calls to command line").
  destruct (log_cmds_spec cmds (logged st [ev])) as (t2 & H2 & Hsp2).
  destruct (spawn_all_spec cmds (logged (logged st [ev]) t2))
    as (ps & t3 & H3 & Hsp3 & Hall).
  destruct (communicate_all_spec ps
              (logged (logged (logged st [ev]) t2) t3))
    as (t4 & Hsp4 & Hres).
  exists ([ev] ++ t2 ++ t3 ++ t4).
  split; [by rewrite !spawns_app, Hsp2, Hsp3, Hsp4, app_nil_r |].
  erewrite bind_ok by apply emit_logged.
  erewrite bind_ok by exact H2. erewrite bind_ok by exact H3.
  destruct Hres as [H4 | [H4 Hbad]]; [left | right]; exists ps;
    rewrite H4, !logged_logged, <- ?app_assoc; done.
Qed.

(** The single-command form. *)
Lemma _call_spec cmd st :
  exists tr p,
    p = popen E tr cmd
    /\ exists tr',
      spawns tr' = [cmd]
      /\ (_call E cmd st = (logged st tr', Ok (stdout p))
          \/ (_call E cmd st = (logged st tr', Raise UnicodeDecodeError)
              /\ utf8_valid (stderr p) = false)).
Proof.
  unfold _call.
  destruct (_calls_spec [cmd] st) as (tr' & Hsp & [(ps & H & Hall) | (ps & H & Hall & Hbad)]).
  - inversion Hall as [|? p ? ps' [tr Hp] Hnil]; subst. inversion Hnil; subst.
    exists tr, (popen E tr cmd). split; [done |]. exists tr'. split; [done | left].
    by erewrite bind_ok by exact H.
  - inversion Hall as [|? p ? ps' [tr Hp] Hnil]; subst. inversion Hnil; subst.
    exists tr, (popen E tr cmd). split; [done |]. exists tr'. split; [done | right].
    split; [by erewrite bind_raise by exact H |].
    by inversion Hbad as [? ? Hb | ? ? Hb]; [| inversion Hb].
Qed.

End Runner.

(** ** Stopping workers *)

Lemma map_res_py_int (ws : list Z) : map_res py_int (map PInt ws) = Ok ws.
Proof. induction ws as [|w r IH]; [done |]. cbn. by rewrite IH. Qed.

Lemma map_res_job_of_present (m : gmap Z string) (ws : list Z) :
  (forall w, w ∈ ws -> is_Some (m !! w)) ->
  exists js, map_res (job_of m) ws = Ok js
             /\ Forall2 (fun w j => m !! w = Some j) ws js.
Proof.
  induction ws as [|w r IH]; intros Hin.
  - by exists [].
  - destruct (Hin w) as [j Hj]; [by left |].
    destruct IH as (js & Hjs & Hall); [intros w' Hw'; apply Hin; by right |].
    exists (j :: js). split; [| by constructor].
    cbn. unfold job_of at 1. rewrite Hj. cbn. by rewrite Hjs.
Qed.

Lemma map_res_job_of_absent (m : gmap Z string) (ws : list Z) :
  (exists w, w ∈ ws /\ m !! w = None) ->
  map_res (job_of m) ws = Raise KeyError.
Proof.
  induction ws as [|w r IH]; intros (w' & Hin & Hnone).
  - by apply elem_of_nil in Hin.
  - cbn. unfold job_of at 1. destruct (m !! w) as [j|] eqn:Hw; [| done].
    cbn. rewrite IH; [done |]. exists w'. split; [| done].
    apply elem_of_cons in Hin as [-> | Hin]; [congruence | done].
Qed.

Lemma lookup_removed (ws : list Z) (m : gmap Z string) (k : Z) :
  removed ws m !! k = if decide (k ∈ ws) then None else m !! k.
Proof.
  revert m. induction ws as [|w r IH]; intros m.
  - cbn. by rewrite decide_False by apply not_elem_of_nil.
  - cbn. fold (removed r (delete w m)). rewrite IH.
    destruct (decide (k ∈ r)) as [Hr | Hr].
    + by rewrite decide_True by (by right).
    + destruct (decide (k = w)) as [-> | Hne].
      * rewrite lookup_delete_eq. by rewrite decide_True by (by left).
      * rewrite lookup_delete_ne by done.
        rewrite decide_False; [done |].
        intros [? | ?]%elem_of_cons; done.
Qed.

(** One clean-up step: a slot that is gone is passed over. *)
Lemma cleanup_step (w : Z) st :
  ignoring KeyError (del_job w) st
  = ({| self := set_jobs (self st) (delete w (jobs (self st)));
        trace := trace st |}, Ok tt).
Proof.
  unfold ignoring, del_job, bind, get_self. cbn.
  destruct (jobs (self st) !! w) as [j|] eqn:Hw; cbn; [done |].
  by rewrite delete_id, adapter_eta, state_eta.
Qed.

Lemma cleanup_spec (ws : list Z) st :
  for_each ws (fun w => ignoring KeyError (del_job w)) st
  = ({| self := set_jobs (self st) (removed ws (jobs (self st)));
        trace := trace st |}, Ok tt).
Proof.
  revert st. induction ws as [|w r IH]; intros st.
  - cbn. by rewrite adapter_eta, state_eta.
  - cbn [for_each]. erewrite bind_ok by apply cleanup_step.
    by rewrite IH.
Qed.

Section Stop.

Variable E : env.

(** The whole of [stop_workers] on registered slots. *)
Lemma stop_workers_registered st (ws : list Z) :
  ws <> [] ->
  (forall w, w ∈ ws -> is_Some (jobs (self st) !! w)) ->
  (forall tr js,
     utf8_valid (stderr (popen E tr (cancel_command (self st) :: js)))
     = true) ->
  exists js tr',
    Forall2 (fun w j => jobs (self st) !! w = Some j) ws js
    /\ spawns tr' = [cancel_command (self st) :: js]
    /\ stop_workers E (map PInt ws) st
       = ({| self := set_jobs (self st) (removed ws (jobs (self st)));
             trace := trace st ++ tr' |}, Ok tt).
Proof.
  intros Hne Hin Herr.
  destruct (map_res_job_of_present _ _ Hin) as (js & Hjs & Hall).
  destruct (_call_spec E (cancel_command (self st) :: js) st)
    as (tr & p & -> & tr' & Hsp & [Hc | [_ Hbad]]);
    [| by rewrite Herr in Hbad].
  exists js, tr'. split; [done |]. split; [done |].
  destruct ws as [|w r]; [done |].
  unfold stop_workers. cbn [map].
  change (PInt w :: map PInt r) with (map PInt (w :: r)).
  erewrite bind_ok; [| unfold lift; by rewrite map_res_py_int].
  erewrite bind_ok by reflexivity.
  erewrite bind_ok; [| unfold lift; by rewrite Hjs].
  erewrite bind_ok by exact Hc.
  by rewrite cleanup_spec.
Qed.

(** A requested slot that is not registered: the lookup raises before
    anything else happened. *)
Lemma stop_workers_absent st (ws : list Z) :
  (exists w, w ∈ ws /\ jobs (self st) !! w = None) ->
  stop_workers E (map PInt ws) st = (st, Raise KeyError).
Proof.
  intros Habs. destruct ws as [|w r].
  - destruct Habs as (w & Hin & _). by apply elem_of_nil in Hin.
  - unfold stop_workers. cbn [map].
    change (PInt w :: map PInt r) with (map PInt (w :: r)).
    erewrite bind_ok; [| unfold lift; by rewrite map_res_py_int].
    erewrite bind_ok by reflexivity.
    erewrite bind_raise; [done |].
    unfold lift. by rewrite map_res_job_of_absent.
Qed.

End Stop.

(** C2. Registered slots, and still no removal.  The registry is
    [{1: "101", 2: "102"}] and the cancel tool prints a Latin-1 warning
    (the byte [0xE9]) on its diagnostic output.  [stop_workers([1, 2])]
    issues the one call [qdel 101 102], so the two jobs are cancelled,
    and then raises [UnicodeDecodeError] out of the logging of [_calls]
    (the defect of C9): the clean-up loop never runs and slots 1 and 2
    stay registered, whereas the registry should have lost them.  The
    empty list is a no-op. *)
Theorem stop_workers_undecodable_stderr_keeps_slots :
  let st := st0 (set_jobs (fresh (Some "#PBS -q batch") default_template)
                   two_jobs) in
  let st' := (stop_workers latin1 [PInt 1; PInt 2] st).1 in
  jobs (self st) !! 1 = Some "101"
  /\ jobs (self st) !! 2 = Some "102"
  /\ stderr (popen latin1 (trace st) ["qdel"; "101"; "102"]) = [xe9]
  /\ (stop_workers latin1 [PInt 1; PInt 2] st).2 = Raise UnicodeDecodeError
  /\ spawns (trace st') = [["qdel"; "101"; "102"]]
  /\ errors (trace st') = []
  /\ jobs (self st') = two_jobs
  /\ stop_workers latin1 [] st = (st, Ok tt).
Proof. vm_compute. done. Qed.

(** What C2 describes is what happens when the diagnostic output of the
    cancel tool decodes.  On a non-empty list of registered slots
    [stop_workers] then starts exactly one process, the cancel command
    followed by the job of every requested slot in order, and leaves the
    registry without those slots; on the empty list it does nothing. *)
Lemma stop_workers_batch_cancel (E : env) (st : state) (ws : list Z) :
  stop_workers E [] st = (st, Ok tt)
  /\ (ws <> [] ->
      (forall w, w ∈ ws -> is_Some (jobs (self st) !! w)) ->
      (forall tr js,
         utf8_valid (stderr (popen E tr (cancel_command (self st) :: js)))
         = true) ->
      exists js st',
        Forall2 (fun w j => jobs (self st) !! w = Some j) ws js
        /\ stop_workers E (map PInt ws) st = (st', Ok tt)
        /\ spawns (trace st')
           = spawns (trace st) ++ [cancel_command (self st) :: js]
        /\ (forall w, jobs (self st') !! w
                      = if decide (w ∈ ws) then None
                        else jobs (self st) !! w)
        /\ n (self st') = n (self st)).
Proof.
  split; [done |]. intros Hne Hin Herr.
  destruct (stop_workers_registered E st ws Hne Hin Herr)
    as (js & tr' & Hall & Hsp & Heq).
  eexists js, _. split; [done |]. split; [exact Heq |]. cbn.
  split; [by rewrite spawns_app, Hsp |].
  split; [intros w; apply lookup_removed | done].
Qed.

(** C3. A requested slot that is not registered makes [stop_workers]
    raise [KeyError] at the lookup: nothing is logged, no process is
    started and the registry is as before; the clean-up step after a
    cancellation passes over a slot that is already gone, as happens when
    a registered slot is requested twice. *)
Theorem stop_workers_unknown_slot (E : env) (st : state) (ws : list Z) :
  ((exists w, w ∈ ws /\ jobs (self st) !! w = None) ->
   stop_workers E (map PInt ws) st = (st, Raise KeyError))
  /\ (forall w, jobs (self st) !! w = None ->
                ignoring KeyError (del_job w) st = (st, Ok tt))
  /\ (forall w j,
        jobs (self st) !! w = Some j ->
        (forall tr js,
           utf8_valid (stderr (popen E tr (cancel_command (self st) :: js)))
           = true) ->
        exists st',
          stop_workers E [PInt w; PInt w] st = (st', Ok tt)
          /\ spawns (trace st')
             = spawns (trace st) ++ [[cancel_command (self st); j; j]]
          /\ jobs (self st') = delete w (jobs (self st))).
Proof.
  split; [| split].
  - apply stop_workers_absent.
  - intros w Hw. rewrite cleanup_step.
    by rewrite delete_id, adapter_eta, state_eta.
  - intros w j Hw Herr.
    destruct (stop_workers_registered E st [w; w]) as (js & tr' & Hall & Hsp & Heq);
      [done | | done |].
    { intros w' Hin. apply elem_of_cons in Hin as [-> | Hin]; [by eexists |].
      apply elem_of_cons in Hin as [-> | Hin]; [by eexists |].
      by apply elem_of_nil in Hin. }
    inversion Hall as [|? j1 ? js1 Hj1 Hall1]; subst.
    inversion Hall1 as [|? j2 ? js2 Hj2 Hall2]; subst.
    inversion Hall2; subst.
    assert (j1 = j) as -> by congruence. assert (j2 = j) as -> by congruence.
    eexists. split; [exact Heq |]. cbn.
    split; [by rewrite spawns_app, Hsp |].
    by rewrite delete_delete_eq.
Qed.

(** ** Rendering and starting *)

Lemma job_script_eq st : job_script st = (minted st, rendered (self (minted st))).
Proof.
  unfold job_script, bind, get_self, put_self, lift, rendered, minted. cbn.
  by destruct (fmt _ Text (_command_template (self st))).
Qed.

Section Start.

Variable E : env.

(** The block of [job_file] with the block of one round under it,
    before [tmpfile] leaves. *)
Lemma start_block_unfold ws st fn :
  (emit (FileOpen fn) ;;
   text <- job_script ;;
   emit (FileWrite fn text) ;;
   a <- get_self ;;
   out <- _call E [submit_command a; fn] ;;
   text <- lift (decode out) ;;
   job <- lift (py_index (split "." text) 0) ;;
   a <- get_self ;;
   put_self (set_jobs a (<[n a := job]> (jobs a))) ;;
   ret (ws ++ [n a])) st =
  match rendered (self (minted st)) with
  | Raise e => (logged (minted st) [FileOpen fn], Raise e)
  | Ok text =>
      let st1 := logged (minted st) [FileOpen fn; FileWrite fn text] in
      match _call E [submit_command (self st1); fn] st1 with
      | (st2, Raise e) => (st2, Raise e)
      | (st2, Ok out) =>
          match res_bind (decode out) (fun t => py_index (split "." t) 0) with
          | Raise e => (st2, Raise e)
          | Ok job =>
              ({| self := set_jobs (self st2)
                            (<[n (self st2) := job]> (jobs (self st2)));
                  trace := trace st2 |},
               Ok (ws ++ [n (self st2)]))
          end
      end
  end.
Proof.
  erewrite (bind_ok (emit _)) by apply emit_logged.
  unfold bind at 1. rewrite job_script_eq.
  change (self (minted (logged st [FileOpen fn]))) with (self (minted st)).
  destruct (rendered _) as [text | e];
    [| unfold logged, minted; cbn; done].
  erewrite (bind_ok (emit _)) by apply emit_logged.
  erewrite (bind_ok get_self) by reflexivity.
  replace (logged (minted (logged st [FileOpen fn])) [FileWrite fn text])
    with (logged (minted st) [FileOpen fn; FileWrite fn text])
    by (unfold logged, minted; cbn; by rewrite <- app_assoc).
  cbn zeta. unfold bind at 1.
  destruct (_call E _ _) as [st2 [out | e]]; [| done].
  unfold bind at 1, lift at 1.
  destruct (decode out) as [t | e]; [| done]. cbn [res_bind].
  unfold bind at 1, lift at 1.
  destruct (py_index _ _) as [job | e]; done.
Qed.

(** One round of the loop, case by case: [bye] is what [tmpfile] does
    when the round raises. *)
Lemma start_one_unfold ws st :
  start_one E ws st =
  let fn := tmpfile E (trace st) in
  let bye := if tmpfile_guards E then [FileRemove fn] else [] in
  match rendered (self (minted st)) with
  | Raise e => (logged (minted st) (FileOpen fn :: bye), Raise e)
  | Ok text =>
      let st1 := logged (minted st) [FileOpen fn; FileWrite fn text] in
      match _call E [submit_command (self st1); fn] st1 with
      | (st2, Raise e) => (logged st2 bye, Raise e)
      | (st2, Ok out) =>
          match res_bind (decode out) (fun t => py_index (split "." t) 0) with
          | Raise e => (logged st2 bye, Raise e)
          | Ok job =>
              ({| self := set_jobs (self st2)
                            (<[n (self st2) := job]> (jobs (self st2)));
                  trace := trace st2 ++ [FileRemove fn] |},
               Ok (ws ++ [n (self st2)]))
          end
      end
  end.
Proof.
  unfold start_one, job_file.
  erewrite bind_ok by reflexivity. cbn zeta.
  pose proof (start_block_unfold ws st (tmpfile E (trace st))) as Hb.
  cbn zeta in Hb.
  unfold scoped. destruct (tmpfile_guards E).
  - unfold finally. rewrite Hb.
    destruct (rendered _) as [text | e];
      [| unfold logged, minted; cbn; by rewrite <- app_assoc].
    destruct (_call E _ _) as [st2 [out | e]]; [| done].
    destruct (res_bind _ _) as [job | e]; done.
  - unfold bind at 1. rewrite Hb.
    destruct (rendered _) as [text | e]; [| done].
    destruct (_call E _ _) as [st2 [out | e]]; [| by rewrite logged_nil].
    destruct (res_bind _ _) as [job | e]; [done | by rewrite logged_nil].
Qed.

(** A round always moves the counter by one; it either raises, with the
    registry as it was, or registers the new slot and appends it. *)
Lemma start_one_cases ws st :
  exists tr',
    (exists e, start_one E ws st = (logged (minted st) tr', Raise e))
    \/ (exists job,
          start_one E ws st
          = ({| self := set_jobs (self (minted st))
                          (<[n (self st) + 1 := job]> (jobs (self st)));
                trace := trace st ++ tr' |},
             Ok (ws ++ [n (self st) + 1]))).
Proof.
  rewrite start_one_unfold. cbn zeta.
  destruct (rendered _) as [text | e]; [| eexists; left; by eexists].
  set (fn := tmpfile E (trace st)).
  set (st1 := logged (minted st) [FileOpen fn; FileWrite fn text]).
  destruct (_call_spec E [submit_command (self st1); fn] st1)
    as (tr & p & _ & tr' & _ & [-> | [-> _]]).
  - destruct (res_bind _ _) as [job | e].
    + eexists. right. exists job. cbn. by rewrite <- !app_assoc.
    + eexists. left. exists e. subst st1. by rewrite !logged_logged.
  - eexists. left. eexists. subst st1. by rewrite !logged_logged.
Qed.

Lemma start_loop_spec k ws st :
  exists st' r,
    start_loop E k ws st = (st', r)
    /\ n (self st) <= n (self st') <= n (self st) + Z.of_nat k
    /\ forall l, r = Ok l ->
         l = ws ++ slots_from (n (self st)) k
         /\ n (self st') = n (self st) + Z.of_nat k.
Proof.
  revert ws st. induction k as [|k IH]; intros ws st.
  - exists st, (Ok ws). cbn. split; [done |]. split; [lia |].
    intros l [= <-]. rewrite app_nil_r. split; [done | lia].
  - cbn [start_loop slots_from].
    destruct (start_one_cases ws st) as (tr' & [(e & H) | (job & H)]).
    + eexists _, _. split; [by erewrite bind_raise by exact H |].
      cbn. split; [lia | done].
    + erewrite bind_ok by exact H.
      destruct (IH (ws ++ [n (self st) + 1])
                  {| self := set_jobs (self (minted st))
                               (<[n (self st) + 1 := job]> (jobs (self st)));
                     trace := trace st ++ tr' |})
        as (st' & r & -> & Hn & Hl).
      cbn in Hn, Hl. exists st', r. split; [done |]. split; [lia |].
      intros l Hr. destruct (Hl l Hr) as [-> ->].
      split; [by rewrite <- app_assoc | lia].
Qed.

End Start.

(** ** The slot counter along a history *)

Lemma between_nil lo hi : between lo hi [].
Proof. split; constructor. Qed.

Lemma between_app lo mid hi l1 l2 :
  lo <= mid <= hi -> between lo mid l1 -> between mid hi l2 ->
  between lo hi (l1 ++ l2).
Proof.
  intros Hm [S1 B1] [S2 B2]. split.
  - apply StronglySorted_app. split; [| done].
    intros x1 x2 H1 H2.
    rewrite Forall_forall in B1, B2.
    specialize (B1 x1 H1). specialize (B2 x2 H2). lia.
  - apply Forall_app. split.
    + eapply Forall_impl; [exact B1 |]. intros x Hx. cbn in Hx. lia.
    + eapply Forall_impl; [exact B2 |]. intros x Hx. cbn in Hx. lia.
Qed.

Lemma slots_from_between base k :
  between base (base + Z.of_nat k) (slots_from base k).
Proof.
  revert base. induction k as [|k IH]; intros base; [apply between_nil |].
  cbn [slots_from].
  change (base + 1 :: slots_from (base + 1) k)
    with ([base + 1] ++ slots_from (base + 1) k).
  apply between_app with (mid := base + 1); [lia | |].
  - split; repeat constructor; lia.
  - replace (base + Z.of_nat (S k)) with (base + 1 + Z.of_nat k) by lia.
    apply IH.
Qed.

(** Lists cut out of one strictly increasing list share no element. *)
Lemma sorted_concat_lt (outs : list (list Z)) i j l1 l2 x y :
  StronglySorted Z.lt (concat outs) ->
  (i < j)%nat -> outs !! i = Some l1 -> outs !! j = Some l2 ->
  x ∈ l1 -> y ∈ l2 -> x < y.
Proof.
  revert i j. induction outs as [|l r IH]; intros i j Hs Hij Hi Hj Hx Hy.
  - done.
  - cbn in Hs. apply StronglySorted_app in Hs as (Hlt & _ & Hr).
    destruct i as [|i]; destruct j as [|j]; try lia; cbn in Hi, Hj.
    + injection Hi as <-. apply Hlt; [done |].
      apply list_elem_of_In, in_concat. exists l2.
      split; [| by apply list_elem_of_In].
      apply list_elem_of_In. by eapply list_elem_of_lookup_2.
    + eapply (IH i j); eauto. lia.
Qed.

Lemma sorted_concat_each (outs : list (list Z)) :
  StronglySorted Z.lt (concat outs) -> Forall (StronglySorted Z.lt) outs.
Proof.
  induction outs as [|l r IH]; intros Hs; [constructor |].
  cbn in Hs. apply StronglySorted_app in Hs as (_ & Hl & Hr).
  constructor; auto.
Qed.

Section Counter.

Variable E : env.

Lemma stop_workers_n ws st :
  n (self (stop_workers E ws st).1) = n (self st).
Proof.
  destruct ws as [|v r]; [done |].
  unfold stop_workers. generalize (v :: r). intros vs.
  unfold bind at 1, lift at 1.
  destruct (map_res py_int vs) as [ws |]; [| done].
  erewrite bind_ok by reflexivity.
  unfold bind at 1, lift at 1.
  destruct (map_res _ ws) as [js |]; [| done].
  destruct (_call_spec E (cancel_command (self st) :: js) st)
    as (tr & p & _ & tr' & _ & [H | [H _]]).
  - erewrite bind_ok by exact H. by rewrite cleanup_spec.
  - by erewrite bind_raise by exact H.
Qed.

Lemma scale_down_n w st : n (self (scale_down E w st).1) = n (self st).
Proof.
  destruct w as [| | | |d]; try done.
  unfold scale_down.
  unfold bind at 1, lift at 1. destruct (names_of d); [| done].
  unfold bind at 1, lift at 1. destruct (job_ids_of E _); [| done].
  apply stop_workers_n.
Qed.

Lemma start_workers_between count st :
  exists st' r,
    start_workers E count st = (st', r)
    /\ n (self st) <= n (self st')
    /\ between (n (self st)) (n (self st')) (concat (returned r)).
Proof.
  unfold start_workers.
  destruct (start_loop_spec E (Z.to_nat count) [] st) as (st' & r & -> & Hn & Hl).
  exists st', r. split; [done |]. split; [lia |].
  destruct r as [l | e]; [| apply between_nil].
  destruct (Hl l eq_refl) as [-> ->]. cbn. rewrite app_nil_r.
  apply slots_from_between.
Qed.

Lemma run_call_between c st :
  n (self st) <= n (self (run_call E c st).1)
  /\ between (n (self st)) (n (self (run_call E c st).1))
       (concat (run_call E c st).2).
Proof.
  destruct c as [count | ws | target | w |]; cbn [run_call].
  - destruct (start_workers_between count st) as (st' & r & -> & Hn & Hb).
    by split.
  - cbn. rewrite stop_workers_n. split; [lia | apply between_nil].
  - unfold scale_up. erewrite bind_ok by reflexivity.
    destruct (start_workers_between
                (target - Z.of_nat (size (jobs (self st)))) st)
      as (st' & r & -> & Hn & Hb).
    by split.
  - cbn. rewrite scale_down_n. split; [lia | apply between_nil].
  - rewrite job_script_eq. cbn. split; [lia | apply between_nil].
Qed.

Lemma run_between cs st :
  n (self st) <= n (self (run E cs st).1)
  /\ between (n (self st)) (n (self (run E cs st).1))
       (concat (run E cs st).2).
Proof.
  revert st. induction cs as [|c r IH]; intros st.
  - cbn. split; [lia | apply between_nil].
  - cbn [run].
    destruct (run_call_between c st) as [Hn1 Hb1].
    destruct (run_call E c st) as [st1 out1]. cbn in Hn1, Hb1.
    destruct (IH st1) as [Hn2 Hb2].
    destruct (run E r st1) as [st2 out2]. cbn in Hn2, Hb2 |- *.
    split; [lia |]. rewrite concat_app.
    by apply between_app with (mid := n (self st1)); [lia | |].
Qed.

End Counter.

(** C5. A target that does not exceed the registry size starts nothing:
    [scale_up] returns the empty list and the adapter and the trace are as
    before; a count of zero or below given to [start_workers] runs no
    round of its loop. *)
Theorem scale_up_target_not_above_size (E : env) (st : state) (target : Z) :
  (target <= Z.of_nat (size (jobs (self st))) ->
   scale_up E target st = (st, Ok []))
  /\ (forall count, count <= 0 -> start_workers E count st = (st, Ok [])).
Proof.
  assert (forall count, count <= 0 -> start_workers E count st = (st, Ok []))
    as Hzero.
  { intros count Hc. unfold start_workers.
    by replace (Z.to_nat count) with O by lia. }
  split; [| done]. intros Hle.
  unfold scale_up. erewrite bind_ok by reflexivity. apply Hzero. lia.
Qed.

(** C10. An argument that is not a mapping makes [scale_down] return at
    once: no exception, no event, the adapter unchanged. *)
Theorem scale_down_non_mapping (E : env) (st : state) (w : pyval) :
  (forall d, w <> PDict d) -> scale_down E w st = (st, Ok tt).
Proof. intros Hw. destruct w; try done. by destruct (Hw d). Qed.

(** ** The command runner, once more *)

(** When every diagnostic output decodes, [_calls] returns the standard
    outputs of the processes it started, one per command and in the order
    of the commands. *)
Lemma _calls_outputs_in_order (E : env) cmds st :
  (forall tr argv, utf8_valid (stderr (popen E tr argv)) = true) ->
  exists ps,
    (_calls E cmds st).2 = Ok (map stdout ps)
    /\ length (map stdout ps) = length cmds
    /\ Forall2 (fun cmd p => exists tr, p = popen E tr cmd) cmds ps.
Proof.
  intros Herr.
  destruct (_calls_spec E cmds st)
    as (tr' & _ & [(ps & H & Hall) | (ps & H & Hall & Hbad)]).
  - exists ps. rewrite H. split; [done |]. split; [| done].
    rewrite length_map. symmetry. by eapply Forall2_length.
  - exfalso. clear H. induction Hall as [|cmd p cmds ps [tr ->] Hall IH].
    + inversion Hbad.
    + inversion Hbad as [? ? Hp | ? ? Hp]; subst; [| by apply IH].
      by rewrite Herr in Hp.
Qed.

(** C9. With a process whose standard output is the job identifier and
    whose diagnostic output is the single byte [0xE9], [_calls] raises
    [UnicodeDecodeError] after the process was started: the output that
    was printed is not returned and nothing is logged as an error. *)
Theorem calls_undecodable_stderr_raises :
  let st := st0 (fresh (Some "#PBS -q batch") default_template) in
  let p := popen latin1
             [LogDebug "Submitting the following calls to command line";
              LogDebug "qsub job.sh"] ["qsub"; "job.sh"] in
  decode (stdout p) = Ok "101.headnode"
  /\ stderr p = [xe9]
  /\ (_calls latin1 [["qsub"; "job.sh"]] st).2 = Raise UnicodeDecodeError
  /\ trace (_calls latin1 [["qsub"; "job.sh"]] st).1
     = [LogDebug "Submitting the following calls to command line";
        LogDebug "qsub job.sh"; Spawn ["qsub"; "job.sh"]].
Proof. vm_compute. done. Qed.

(** ** A submission whose output does not decode *)



(** ** Rendering the script *)

Lemma script_template_renders (h : option string) (cmd : string) :
  py_format _script_template
    [("job_header", header_val h); ("worker_command", PStr cmd)]
  = Ok (boilerplate (str_of_header h) cmd).
Proof. by destruct h. Qed.

(** [job_script] in one equation: the counter moves, and the result is
    the frame around whatever the command template renders to. *)
Lemma job_script_boilerplate st :
  job_script st
  = (minted st,
     res_map (boilerplate (str_of_header (job_header (self st))))
       (py_format (_command_template (self st))
          [("n", PInt (n (self st) + 1))])).
Proof.
  rewrite job_script_eq. f_equal. unfold rendered, res_map, py_format.
  cbn [minted self set_n _command_template n job_header].
  destruct (fmt _ Text (_command_template (self st))) as [cmd | e]; [| done].
  cbn [res_bind]. apply script_template_renders.
Qed.

(** C8 as stated fails: an adapter straight from the constructor has no
    job header, and rendering its script succeeds, with the header line
    reading [None]. *)
Lemma job_script_unset_header_renders :
  exists a,
    __init__ (Some "qsub") (Some "qdel") "/usr/bin" "tcp://10.0.0.5:8786"
      default_args = Ok a
    /\ job_header a = None
    /\ (job_script (st0 a)).2
       = Ok (boilerplate "None"
               ("/usr/bin/dask-worker tcp://10.0.0.5:8786 --nthreads 4"
                +:+ " --nprocs 6 --memory-limit 16GB --name dask-worker-1"
                +:+ " --death-timeout 60"))
    /\ ~ (exists e, (job_script (st0 a)).2 = Raise e).
Proof.
  eexists. split; [reflexivity |]. split; [reflexivity |].
  assert (forall {A} (r : res A) a, r = Ok a -> ~ (exists e, r = Raise e)) as Hno
    by (intros A r a -> [e He]; discriminate).
  split; [by vm_compute | eapply Hno; by vm_compute].
Qed.

(** C8, amended. The configuration error is the constructor's: when the
    class leaves [submit_command] or [cancel_command] unset, [__init__]
    raises [NotImplementedError] and no adapter exists to spawn anything.
    A constructed adapter starts with no job header, and [job_script] does
    not check it: with the header unset it raises no configuration
    error, the counter moves, nothing is spawned, and the result is that
    of filling the command template, put into the script with the header
    line [None]. *)
Theorem unset_header_is_rendered_as_None (st : state)
    (submit cancel : option string) (dirname address : string)
    (args : init_args) :
  (truthy submit = false \/ truthy cancel = false ->
   __init__ submit cancel dirname address args = Raise NotImplementedError)
  /\ (forall a, __init__ submit cancel dirname address args = Ok a ->
                job_header a = None /\ jobs a = ∅ /\ n a = 0)
  /\ (job_header (self st) = None ->
      job_script st
      = (minted st,
         res_map (boilerplate "None")
           (py_format (_command_template (self st))
              [("n", PInt (n (self st) + 1))]))
      /\ trace (minted st) = trace st).
Proof.
  split; [| split].
  - unfold __init__. intros [-> | ->]; [by rewrite orb_true_r | by cbn].
  - unfold __init__. intros a.
    destruct (negb (truthy cancel) || negb (truthy submit)); [done |].
    destruct (truthy (interface args)); [destruct (extra args) |];
      cbn; intros [= <-]; done.
  - intros Hh. split; [| done]. by rewrite job_script_boilerplate, Hh.
Qed.

(** ** The command template and its placeholder *)

Lemma string_app_assoc (s1 s2 s3 : string) :
  (s1 +:+ s2) +:+ s3 = s1 +:+ s2 +:+ s3.
Proof.
  induction s1 as [|c s1 IH]; [done |].
  change (String c ((s1 +:+ s2) +:+ s3) = String c (s1 +:+ s2 +:+ s3)).
  by rewrite IH.
Qed.

Lemma string_app_nil_r (s : string) : s +:+ "" = s.
Proof.
  induction s as [|c s IH]; [done |].
  change (String c (s +:+ "") = String c s). by rewrite IH.
Qed.

Lemma pct_free_app (s1 s2 : string) :
  pct_free (s1 +:+ s2) = pct_free s1 && pct_free s2.
Proof.
  induction s1 as [|c s1 IH]; [done |].
  change (negb (Ascii.eqb c "%") && pct_free (s1 +:+ s2)
          = negb (Ascii.eqb c "%") && pct_free s1 && pct_free s2).
  by rewrite IH, andb_assoc.
Qed.

Lemma pct_free_uint (d : Decimal.uint) :
  pct_free (NilEmpty.string_of_uint d) = true.
Proof. induction d; cbn; auto. Qed.

Lemma pct_free_nz_uint (d : Decimal.uint) :
  pct_free (NilZero.string_of_uint d) = true.
Proof.
  destruct d; [done | ..];
    match goal with
    | |- pct_free (NilZero.string_of_uint ?x) = true => exact (pct_free_uint x)
    end.
Qed.

Lemma pct_free_str_of_int (z : Z) : pct_free (str_of_int z) = true.
Proof.
  unfold str_of_int, NilZero.string_of_int.
  destruct (Z.to_int z) as [d | d]; [apply pct_free_nz_uint |].
  cbn [pct_free]. by rewrite pct_free_nz_uint.
Qed.

(** Plain text is copied by the formatter. *)
Lemma fmt_plain_prefix d (s rest : string) :
  pct_free s = true ->
  fmt d Text (s +:+ rest) = res_map (String.append s) (fmt d Text rest).
Proof.
  induction s as [|c s IH]; intros Hs.
  - change ("" +:+ rest) with rest. by destruct (fmt d Text rest).
  - cbn in Hs. apply andb_true_iff in Hs as [Hc Hs].
    change (String c s +:+ rest) with (String c (s +:+ rest)).
    cbn [fmt]. destruct (Ascii.eqb c "%"); [done |].
    rewrite IH by done. by destruct (fmt d Text rest).
Qed.

Lemma fmt_plain d (s : string) : pct_free s = true -> fmt d Text s = Ok s.
Proof.
  intros Hs. rewrite <- (string_app_nil_r s) at 1.
  rewrite fmt_plain_prefix by done. cbn. by rewrite string_app_nil_r.
Qed.

(** The slot placeholder is replaced by the decimal text of the slot. *)
Lemma fmt_placeholder (k : Z) (rest : string) :
  fmt [("n", PInt k)] Text ("%(n)d" +:+ rest)
  = res_map (String.append (str_of_int k)) (fmt [("n", PInt k)] Text rest).
Proof. reflexivity. Qed.

Lemma add_opt_app {A} pre (show : A -> string) o (x y : string) :
  add_opt pre show o (x +:+ y) = x +:+ add_opt pre show o y.
Proof. destruct o; [| done]. cbn. by rewrite string_app_assoc. Qed.

Lemma pct_free_add_opt {A} pre (show : A -> string) o (t : string) :
  pct_free t = true -> pct_free pre = true ->
  (forall v, o = Some v -> pct_free (show v) = true) ->
  pct_free (add_opt pre show o t) = true.
Proof.
  intros Ht Hp Hv. destruct o as [v |]; [| done]. cbn.
  by rewrite !pct_free_app, Ht, Hp, (Hv v).
Qed.

Lemma pct_free_path_join (a b : string) :
  pct_free a = true -> pct_free b = true -> pct_free (path_join a b) = true.
Proof.
  intros Ha Hb. unfold path_join.
  assert (pct_free (if String.eqb a "" || ends_with_slash a then a +:+ b
                    else a +:+ "/" +:+ b) = true) as H.
  { destruct (_ || _); by rewrite !pct_free_app, ?Ha, ?Hb. }
  destruct b as [|c b']; [done |].
  destruct c as [[] [] [] [] [] [] [] []]; done.
Qed.

Lemma command_template_named dirname address a extra' nm :
  name a = Some nm ->
  command_template dirname address a extra'
  = (stem dirname address a +:+ " --name " +:+ nm +:+ "-")
    +:+ "%(n)d" +:+ tail_opts a extra'.
Proof.
  intros Hn. unfold command_template, tail_opts. rewrite Hn.
  fold (stem dirname address a).
  replace ((stem dirname address a +:+ " --name " +:+ nm) +:+ "-%(n)d")
    with ((stem dirname address a +:+ " --name " +:+ nm +:+ "-")
          +:+ "%(n)d" +:+ "")
    by (by rewrite !string_app_assoc).
  by rewrite <- !string_app_assoc, !add_opt_app, !string_app_assoc.
Qed.

Lemma command_template_unnamed dirname address a extra' :
  name a = None ->
  command_template dirname address a extra'
  = stem dirname address a +:+ tail_opts a extra'.
Proof.
  intros Hn. unfold command_template, tail_opts. rewrite Hn.
  fold (stem dirname address a).
  rewrite <- (string_app_nil_r (stem dirname address a)) at 1.
  by rewrite !add_opt_app.
Qed.

Lemma plain_stem dirname address a extra' :
  plain_args dirname address a extra' = true ->
  pct_free (stem dirname address a) = true
  /\ pct_free (tail_opts a extra') = true
  /\ opt_free (name a) = true.
Proof.
  unfold plain_args. rewrite !andb_true_iff.
  intros [[[[[Hd Ha] Hm] Hn] Hl] He].
  split; [| split; [| done]].
  - unfold stem. repeat apply pct_free_add_opt; try done.
    + apply pct_free_path_join; [done |]. by rewrite pct_free_app, Ha.
    + intros v _. apply pct_free_str_of_int.
    + intros v _. apply pct_free_str_of_int.
    + intros v Hv. by rewrite Hv in Hm.
  - unfold tail_opts. repeat apply pct_free_add_opt; try done.
    + intros v _. apply pct_free_str_of_int.
    + intros v Hv. by rewrite Hv in Hl.
    + intros v Hv. by rewrite Hv in He.
Qed.

(** C7 as stated fails: the constructor keeps the placeholder only when
    a worker name is given.  Without one the template has no placeholder
    and the command of the first script (slot 1) does not contain the slot
    number anywhere. *)
Lemma job_script_unnamed_has_no_slot :
  exists a cmd,
    __init__ (Some "qsub") (Some "qdel") "/usr/bin" "tcp://scheduler:8786"
      unnamed_args = Ok a
    /\ occurrences "%(n)d" (_command_template a) = 0%nat
    /\ job_script (st0 (set_job_header a (Some "#PBS -q batch")))
       = (minted (st0 (set_job_header a (Some "#PBS -q batch"))),
          Ok (boilerplate "#PBS -q batch" cmd))
    /\ n (self (minted (st0 (set_job_header a (Some "#PBS -q batch"))))) = 1
    /\ occurrences (str_of_int 1) cmd = 0%nat
    /\ occurrences (str_of_int 1) cmd <> 1%nat.
Proof.
  eexists. exists ("/usr/bin/dask-worker tcp://scheduler:8786 --nthreads 4"
                   +:+ " --nprocs 6 --memory-limit 8GB --death-timeout 60").
  split; [reflexivity |]. by vm_compute.
Qed.

(** C7, amended. Every call of [job_script] moves the counter by exactly
    one before rendering, and when the command template renders the text
    returned is the frame [#!/bin/bash], blank line, header, blank line,
    command.  The command is the template with its placeholder replaced
    by the new slot number: a template built by the constructor from
    texts without a percent sign has exactly one placeholder when a worker
    name is given (the command is the text before it, the decimal slot
    number, the text after it) and none when the name is [None] (the
    command is the template itself). *)
Theorem job_script_mints_then_renders (st : state)
    (dirname address : string) (a : init_args) (extra' : option string) :
  job_script st
  = (minted st,
     res_map (boilerplate (str_of_header (job_header (self st))))
       (py_format (_command_template (self st))
          [("n", PInt (n (self st) + 1))]))
  /\ n (self (minted st)) = n (self st) + 1
  /\ (plain_args dirname address a extra' = true ->
      forall nm, name a = Some nm ->
        exists pre post,
          pct_free pre = true /\ pct_free post = true
          /\ pre = stem dirname address a +:+ " --name " +:+ nm +:+ "-"
          /\ command_template dirname address a extra'
             = pre +:+ "%(n)d" +:+ post
          /\ forall k,
               py_format (command_template dirname address a extra')
                 [("n", PInt k)]
               = Ok (pre +:+ str_of_int k +:+ post))
  /\ (plain_args dirname address a extra' = true ->
      name a = None ->
      pct_free (command_template dirname address a extra') = true
      /\ forall k,
           py_format (command_template dirname address a extra')
             [("n", PInt k)]
           = Ok (command_template dirname address a extra')).
Proof.
  split; [apply job_script_boilerplate |]. split; [done |]. split.
  - intros Hp nm Hn.
    destruct (plain_stem _ _ _ _ Hp) as (Hs & Ht & Hnm). rewrite Hn in Hnm.
    exists (stem dirname address a +:+ " --name " +:+ nm +:+ "-"),
           (tail_opts a extra').
    assert (pct_free (stem dirname address a +:+ " --name " +:+ nm +:+ "-")
            = true) as Hpre
      by (cbn in Hnm; by rewrite !pct_free_app, Hs, Hnm).
    split; [done |]. split; [done |]. split; [done |].
    split; [by apply command_template_named |].
    intros k. rewrite (command_template_named _ _ _ _ nm) by done.
    unfold py_format. rewrite fmt_plain_prefix by done.
    rewrite fmt_placeholder, fmt_plain by done. done.
  - intros Hp Hn.
    destruct (plain_stem _ _ _ _ Hp) as (Hs & Ht & _).
    rewrite command_template_unnamed by done.
    assert (pct_free (stem dirname address a +:+ tail_opts a extra') = true)
      as Hfree by (by rewrite pct_free_app, Hs, Ht).
    split; [done |]. intros k. by apply fmt_plain.
Qed.

(** ** Scaling down *)





Section Down.

Variable E : env.
Hypothesis set_iter_perm : forall l, set_iter E l ≡ₚ l.



End Down.


(** ** The statements at work on the PBS example *)

Lemma stop_workers_batch_cancel_witness :
  let st := st0 (set_jobs (fresh (Some "#PBS -q batch") default_template)
                   two_jobs) in
  exists js st',
    Forall2 (fun w j => jobs (self st) !! w = Some j) [1; 2] js
    /\ stop_workers pbs (map PInt [1; 2]) st = (st', Ok tt)
    /\ spawns (trace st')
       = spawns (trace st) ++ [cancel_command (self st) :: js]
    /\ (forall w, jobs (self st') !! w
                  = if decide (w ∈ [1; 2]) then None
                    else jobs (self st) !! w)
    /\ n (self st') = n (self st).
Proof.
  cbn zeta.
  apply (proj2 (stop_workers_batch_cancel pbs
                  (st0 (set_jobs
                          (fresh (Some "#PBS -q batch") default_template)
                          two_jobs))
                  [1; 2])).
  - discriminate.
  - intros w Hw. apply elem_of_cons in Hw as [-> | Hw]; [by eexists |].
    apply elem_of_cons in Hw as [-> | Hw]; [by eexists |].
    by apply elem_of_nil in Hw.
  - intros tr argv. reflexivity.
Defined.

Lemma stop_workers_unknown_slot_witness :
  let st := st0 (set_jobs (fresh (Some "#PBS -q batch") default_template)
                   two_jobs) in
  stop_workers pbs (map PInt [1; 7]) st = (st, Raise KeyError).
Proof.
  cbn zeta.
  apply (proj1 (stop_workers_unknown_slot pbs
                  (st0 (set_jobs
                          (fresh (Some "#PBS -q batch") default_template)
                          two_jobs))
                  [1; 7])).
  exists 7. split; [| reflexivity]. right. left.
Defined.


Lemma scale_up_target_not_above_size_witness :
  let st := st0 (set_jobs (fresh (Some "#PBS -q batch") default_template)
                   two_jobs) in
  scale_up pbs 1 st = (st, Ok []).
Proof.
  cbn zeta.
  apply (proj1 (scale_up_target_not_above_size pbs
                  (st0 (set_jobs
                          (fresh (Some "#PBS -q batch") default_template)
                          two_jobs))
                  1)).
  vm_compute. discriminate.
Defined.

Lemma job_script_mints_then_renders_witness :
  exists pre post,
    pct_free pre = true /\ pct_free post = true
    /\ pre = stem "/usr/bin" "tcp://10.0.0.5:8786" default_args
             +:+ " --name " +:+ "dask-worker" +:+ "-"
    /\ command_template "/usr/bin" "tcp://10.0.0.5:8786" default_args (Some "")
       = pre +:+ "%(n)d" +:+ post
    /\ forall k,
         py_format
           (command_template "/usr/bin" "tcp://10.0.0.5:8786" default_args
              (Some ""))
           [("n", PInt k)]
         = Ok (pre +:+ str_of_int k +:+ post).
Proof.
  apply (proj1 (proj2 (proj2
           (job_script_mints_then_renders
              (st0 (fresh (Some "#PBS -q batch") default_template))
              "/usr/bin" "tcp://10.0.0.5:8786" default_args (Some ""))))
           eq_refl "dask-worker" eq_refl).
Defined.

Lemma unset_header_is_rendered_as_None_witness :
  __init__ None None "/usr/bin" "tcp://10.0.0.5:8786" default_args
  = Raise NotImplementedError
  /\ job_script (st0 (fresh None default_template))
     = (minted (st0 (fresh None default_template)),
        res_map (boilerplate "None")
          (py_format default_template [("n", PInt (0 + 1))])).
Proof.
  split.
  - apply (proj1 (unset_header_is_rendered_as_None
                    (st0 (fresh None default_template)) None None
                    "/usr/bin" "tcp://10.0.0.5:8786" default_args)).
    left. reflexivity.
  - apply (proj2 (proj2 (unset_header_is_rendered_as_None
                           (st0 (fresh None default_template)) None None
                           "/usr/bin" "tcp://10.0.0.5:8786" default_args))).
    reflexivity.
Defined.

Lemma scale_down_non_mapping_witness :
  let st := st0 (set_jobs (fresh (Some "#PBS -q batch") default_template)
                   two_jobs) in
  scale_down pbs (PList [PInt 1; PInt 2]) st = (st, Ok tt).
Proof.
  cbn zeta.
  apply (scale_down_non_mapping pbs
           (st0 (set_jobs (fresh (Some "#PBS -q batch") default_template)
                   two_jobs))
           (PList [PInt 1; PInt 2])).
  intros d. discriminate.
Defined.

(** * Further properties of the adapter *)

(** ** The command runner *)

Lemma errors_app (t1 t2 : list event) : errors (t1 ++ t2) = errors t1 ++ errors t2.
Proof. unfold errors. by rewrite flat_map_app. Qed.

Lemma opened_app (t1 t2 : list event) : opened (t1 ++ t2) = opened t1 ++ opened t2.
Proof. unfold opened. by rewrite flat_map_app. Qed.

Lemma deleted_app (t1 t2 : list event) :
  deleted (t1 ++ t2) = deleted t1 ++ deleted t2.
Proof. unfold deleted. by rewrite flat_map_app. Qed.

Lemma written_app (t1 t2 : list event) :
  written (t1 ++ t2) = written t1 ++ written t2.
Proof. unfold written. by rewrite flat_map_app. Qed.

Section RunnerTrace.

Variable E : env.

Lemma spawn_all_trace cmds st :
  exists ps,
    spawn_all E cmds st = (logged st (map Spawn cmds), Ok ps)
    /\ Forall2 (fun cmd p => exists tr, p = popen E tr cmd) cmds ps.
Proof.
  revert st. induction cmds as [|cmd r IH]; intros st.
  - exists []. cbn. rewrite logged_nil. by split.
  - destruct (IH (logged st [Spawn cmd])) as (ps & Heq & Hall).
    exists (popen E (trace st) cmd :: ps). split.
    + cbn [spawn_all].
      erewrite bind_ok; [| unfold spawn; erewrite bind_ok by reflexivity;
                           erewrite bind_ok by apply emit_logged; reflexivity].
      erewrite bind_ok by exact Heq. by rewrite logged_logged.
    + constructor; [by exists (trace st) | done].
Qed.

Lemma log_cmds_trace (cmds : list (list string)) st :
  for_each cmds (fun cmd => emit (LogDebug (join " " cmd))) st
  = (logged st (map (fun cmd => LogDebug (join " " cmd)) cmds), Ok tt).
Proof.
  revert st. induction cmds as [|cmd r IH]; intros st.
  - cbn. by rewrite logged_nil.
  - cbn [for_each]. erewrite bind_ok by apply emit_logged.
    by rewrite IH, logged_logged.
Qed.

Lemma communicate_trace p st :
  (utf8_valid (stderr p) = true
   /\ communicate p st = (logged st (map LogError (complaint p)), Ok (stdout p)))
  \/ (utf8_valid (stderr p) = false
      /\ communicate p st = (st, Raise UnicodeDecodeError)).
Proof.
  unfold communicate, complaint. destruct (stderr p) as [|b bs] eqn:Herr.
  - left. split; [done |]. by rewrite logged_nil.
  - destruct (utf8_valid (b :: bs)) eqn:Hv; [left | right]; (split; [done |]).
    + erewrite bind_ok; [| unfold lift, decode; by rewrite Hv].
      by erewrite bind_ok by apply emit_logged.
    + erewrite bind_raise; [done |]. unfold lift, decode. by rewrite Hv.
Qed.

(** Waiting for the processes in order: the error lines are the
    complaints of the processes waited for, up to the first whose
    diagnostic output does not decode. *)
Lemma communicate_all_trace ps st :
  (Forall (fun p => utf8_valid (stderr p) = true) ps
   /\ communicate_all ps st
      = (logged st (map LogError (flat_map complaint ps)),
         Ok (map stdout ps)))
  \/ (exists done_ps bad rest,
        ps = done_ps ++ bad :: rest
        /\ Forall (fun p => utf8_valid (stderr p) = true) done_ps
        /\ utf8_valid (stderr bad) = false
        /\ communicate_all ps st
           = (logged st (map LogError (flat_map complaint done_ps)),
              Raise UnicodeDecodeError)).
Proof.
  revert st. induction ps as [|p r IH]; intros st.
  - left. split; [constructor |]. cbn. by rewrite logged_nil.
  - cbn [communicate_all].
    destruct (communicate_trace p st) as [[Hv H1] | [Hv H1]].
    + destruct (IH (logged st (map LogError (complaint p))))
        as [[Hall H2] | (d & bad & rest & -> & Hall & Hbad & H2)].
      * left. split; [by constructor |].
        erewrite bind_ok by exact H1. erewrite bind_ok by exact H2.
        cbn [flat_map]. by rewrite logged_logged, map_app.
      * right. exists (p :: d), bad, rest.
        split; [done |]. split; [by constructor |]. split; [done |].
        erewrite bind_ok by exact H1. erewrite bind_raise by exact H2.
        cbn [flat_map]. by rewrite logged_logged, map_app.
    + right. exists [], p, r. split; [done |]. split; [constructor |].
      split; [done |]. erewrite bind_raise by exact H1.
      cbn. by rewrite logged_nil.
Qed.

(** The full account of a call of [_calls]. *)
Lemma calls_account cmds st :
  exists ps,
    Forall2 (fun cmd p => exists tr, p = popen E tr cmd) cmds ps
    /\ ((Forall (fun p => utf8_valid (stderr p) = true) ps
         /\ _calls E cmds st
            = (logged st (calls_trace cmds (flat_map complaint ps)),
               Ok (map stdout ps)))
        \/ (exists done_ps bad rest,
              ps = done_ps ++ bad :: rest
              /\ Forall (fun p => utf8_valid (stderr p) = true) done_ps
              /\ utf8_valid (stderr bad) = false
              /\ _calls E cmds st
                 = (logged st (calls_trace cmds (flat_map complaint done_ps)),
                    Raise UnicodeDecodeError))).
Proof.
  unfold _calls, calls_trace.
  set (ev := LogDebug "Submitting the following calls to command line").
  destruct (spawn_all_trace cmds
              (logged (logged st [ev])
                 (map (fun cmd => LogDebug (join " " cmd)) cmds)))
    as (ps & H3 & Hall).
  exists ps. split; [done |].
  erewrite bind_ok by apply emit_logged.
  erewrite bind_ok by apply log_cmds_trace.
  erewrite bind_ok by exact H3.
  destruct (communicate_all_trace ps
              (logged (logged (logged st [ev])
                         (map (fun cmd => LogDebug (join " " cmd)) cmds))
                 (map Spawn cmds)))
    as [[Hv H4] | (d & bad & rest & -> & Hv & Hbad & H4)].
  - left. split; [done |]. rewrite H4, !logged_logged, <- ?app_assoc. done.
  - right. exists d, bad, rest. split; [done |]. split; [done |].
    split; [done |]. rewrite H4, !logged_logged, <- ?app_assoc. done.
Qed.

End RunnerTrace.

Lemma spawns_calls_trace cmds msgs : spawns (calls_trace cmds msgs) = cmds.
Proof.
  unfold calls_trace. rewrite !spawns_app. cbn [spawns flat_map app].
  assert (forall l : list (list string),
            spawns (map (fun cmd => LogDebug (join " " cmd)) l) = []) as H1
    by (induction l; [done | by cbn]).
  assert (forall l, spawns (map LogError l) = []) as H2
    by (induction l; [done | by cbn]).
  assert (forall l, spawns (map Spawn l) = l) as H3.
  { induction l as [|x l IH]; [done |]. cbn. f_equal. exact IH. }
  fold (spawns (map (fun cmd => LogDebug (join " " cmd)) cmds)).
  by rewrite H1, H2, H3, app_nil_r.
Qed.

Lemma errors_calls_trace cmds msgs : errors (calls_trace cmds msgs) = msgs.
Proof.
  unfold calls_trace. rewrite !errors_app. cbn [errors flat_map app].
  assert (forall l : list (list string),
            errors (map (fun cmd => LogDebug (join " " cmd)) l) = []) as H1
    by (induction l; [done | by cbn]).
  assert (forall l, errors (map Spawn l) = []) as H2
    by (induction l; [done | by cbn]).
  assert (forall l, errors (map LogError l) = l) as H3.
  { induction l as [|x l IH]; [done |]. cbn. f_equal. exact IH. }
  fold (errors (map (fun cmd => LogDebug (join " " cmd)) cmds)).
  by rewrite H1, H2, H3.
Qed.

Lemma opened_calls_trace cmds msgs : opened (calls_trace cmds msgs) = [].
Proof.
  unfold calls_trace. rewrite !opened_app.
  assert (forall l : list (list string),
            opened (map (fun cmd => LogDebug (join " " cmd)) l) = []) as H1
    by (induction l; [done | by cbn]).
  assert (forall l, opened (map Spawn l) = []) as H2
    by (induction l; [done | by cbn]).
  assert (forall l, opened (map LogError l) = []) as H3
    by (induction l; [done | by cbn]).
  by rewrite H1, H2, H3.
Qed.

Lemma deleted_calls_trace cmds msgs : deleted (calls_trace cmds msgs) = [].
Proof.
  unfold calls_trace. rewrite !deleted_app.
  assert (forall l : list (list string),
            deleted (map (fun cmd => LogDebug (join " " cmd)) l) = []) as H1
    by (induction l; [done | by cbn]).
  assert (forall l, deleted (map Spawn l) = []) as H2
    by (induction l; [done | by cbn]).
  assert (forall l, deleted (map LogError l) = []) as H3
    by (induction l; [done | by cbn]).
  by rewrite H1, H2, H3.
Qed.

Lemma written_calls_trace cmds msgs : written (calls_trace cmds msgs) = [].
Proof.
  unfold calls_trace. rewrite !written_app.
  assert (forall l : list (list string),
            written (map (fun cmd => LogDebug (join " " cmd)) l) = []) as H1
    by (induction l; [done | by cbn]).
  assert (forall l, written (map Spawn l) = []) as H2
    by (induction l; [done | by cbn]).
  assert (forall l, written (map LogError l) = []) as H3
    by (induction l; [done | by cbn]).
  by rewrite H1, H2, H3.
Qed.

(** X1. [_calls] never touches the adapter, opens and removes no file,
    and the processes it starts are commands of the batch, taken from
    its front in the order given.  When it returns, it returns one
    output per command, and what it did is, in this order: the banner
    and one debug line per command, the start of every command, each
    exactly once, then the error lines; every process was started
    before any of them was waited for. *)
Theorem calls_starts_each_command_once (E : env) (cmds : list (list string))
    (st : state) :
  self (_calls E cmds st).1 = self st
  /\ (exists tr',
        trace (_calls E cmds st).1 = trace st ++ tr'
        /\ opened tr' = [] /\ deleted tr' = []
        /\ spawns tr' `prefix_of` cmds)
  /\ (forall outs,
        (_calls E cmds st).2 = Ok outs ->
        length outs = length cmds
        /\ spawns (trace (_calls E cmds st).1) = spawns (trace st) ++ cmds
        /\ exists msgs,
             trace (_calls E cmds st).1 = trace st ++ calls_trace cmds msgs).
Proof.
  destruct (calls_account E cmds st)
    as (ps & Hall & [[Hv H] | (d & bad & rest & Hps & Hv & Hbad & H)]);
    rewrite H; cbn [fst snd logged self trace]; (split; [done |]);
    (split; [eexists; split; [done |];
             rewrite opened_calls_trace, deleted_calls_trace,
               spawns_calls_trace; by repeat split |]).
  - intros outs [= <-]. split.
    { rewrite length_map. symmetry. by eapply Forall2_length. }
    split; [by rewrite spawns_app, spawns_calls_trace | by eexists].
  - intros outs [=].
Qed.

Lemma popen_all_valid (E : env) cmds ps :
  (forall tr cmd, cmd ∈ cmds -> utf8_valid (stderr (popen E tr cmd)) = true) ->
  Forall2 (fun cmd p => exists tr, p = popen E tr cmd) cmds ps ->
  Forall (fun p => utf8_valid (stderr p) = true) ps.
Proof.
  intros Hv Hall. induction Hall as [|cmd p cmds ps [tr ->] Hall IH].
  - constructor.
  - constructor; [apply Hv; by left |].
    apply IH. intros tr' cmd' Hin. apply Hv. by right.
Qed.

(** X2. When the diagnostic output of every command decodes, [_calls]
    returns the standard outputs of the processes it started, the i-th
    output being that of the process started for the i-th command, and
    the error log receives exactly the non-empty diagnostic outputs, in
    the order of the commands. *)
Theorem calls_outputs_and_error_log (E : env) (cmds : list (list string))
    (st : state) :
  (forall tr cmd, cmd ∈ cmds -> utf8_valid (stderr (popen E tr cmd)) = true) ->
  exists ps st',
    Forall2 (fun cmd p => exists tr, p = popen E tr cmd) cmds ps
    /\ _calls E cmds st = (st', Ok (map stdout ps))
    /\ self st' = self st
    /\ errors (trace st') = errors (trace st) ++ flat_map complaint ps
    /\ spawns (trace st') = spawns (trace st) ++ cmds.
Proof.
  intros Hvalid.
  destruct (calls_account E cmds st)
    as (ps & Hall & [[Hv H] | (d & bad & rest & Hps & Hv & Hbad & H)]).
  - exists ps. eexists. split; [done |]. split; [exact H |].
    split; [done |]. cbn [logged trace].
    by rewrite errors_app, spawns_app, errors_calls_trace, spawns_calls_trace.
  - exfalso. pose proof (popen_all_valid E cmds ps Hvalid Hall) as Hok.
    rewrite Hps in Hok. apply Forall_app in Hok as [_ Hok].
    inversion Hok as [|? ? Hb _]; subst. by rewrite Hbad in Hb.
Qed.

(** X3. One undecodable diagnostic output spoils the whole batch: if
    the commands before [bad] have decodable diagnostics and [bad] has
    not, [_calls] raises [UnicodeDecodeError] although every command of
    the batch, those after [bad] included, was started; no output is
    returned. *)
Theorem calls_bad_stderr_loses_the_batch (E : env)
    (before after : list (list string)) (bad : list string) (st : state) :
  (forall tr cmd,
     cmd ∈ before -> utf8_valid (stderr (popen E tr cmd)) = true) ->
  (forall tr, utf8_valid (stderr (popen E tr bad)) = false) ->
  exists st',
    _calls E (before ++ bad :: after) st = (st', Raise UnicodeDecodeError)
    /\ self st' = self st
    /\ spawns (trace st') = spawns (trace st) ++ before ++ bad :: after.
Proof.
  intros Hgood Hbad.
  destruct (calls_account E (before ++ bad :: after) st)
    as (ps & Hall & [[Hv H] | (d & b & rest & Hps & Hv & Hb & H)]).
  - exfalso. apply Forall2_app_inv_l in Hall as (ps1 & ps2 & _ & H2 & ->).
    inversion H2 as [|? p ? ps3 [tr ->] _]; subst.
    apply Forall_app in Hv as [_ Hv]. inversion Hv as [|? ? Hp _]; subst.
    by rewrite Hbad in Hp.
  - eexists. split; [exact H |]. split; [done |]. cbn [logged trace].
    by rewrite spawns_app, spawns_calls_trace.
Qed.

Lemma call_account (E : env) (cmd : list string) (st : state) :
  exists tr p,
    p = popen E tr cmd
    /\ ((utf8_valid (stderr p) = true
         /\ _call E cmd st
            = (logged st (calls_trace [cmd] (complaint p)), Ok (stdout p)))
        \/ (utf8_valid (stderr p) = false
            /\ _call E cmd st
               = (logged st (calls_trace [cmd] []),
                  Raise UnicodeDecodeError))).
Proof.
  unfold _call.
  destruct (calls_account E [cmd] st)
    as (ps & Hall & [[Hv H] | (d & b & rest & Hps & Hv & Hb & H)]);
    inversion Hall as [|? p ? ps' [tr Hp] Hnil]; subst;
    inversion Hnil; subst; exists tr, (popen E tr cmd); (split; [done |]).
  - left. inversion Hv; subst. split; [done |].
    erewrite bind_ok by exact H. cbn [flat_map]. by rewrite app_nil_r.
  - right. destruct d as [|x d]; [| destruct d; discriminate].
    injection H2 as <- <-. split; [done |].
    by erewrite bind_raise by exact H.
Qed.

(** X4. [_call] never touches the adapter and starts no process but
    the command it is given, at most once.  When it returns, that
    process was started and what is returned is its standard output;
    indexing the list of outputs never fails. *)
Theorem call_runs_one_process (E : env) (cmd : list string) (st : state) :
  self (_call E cmd st).1 = self st
  /\ (spawns (trace (_call E cmd st).1) = spawns (trace st)
      \/ spawns (trace (_call E cmd st).1) = spawns (trace st) ++ [cmd])
  /\ (_call E cmd st).2 <> Raise IndexError
  /\ (forall out,
        (_call E cmd st).2 = Ok out ->
        spawns (trace (_call E cmd st).1) = spawns (trace st) ++ [cmd]
        /\ exists tr, out = stdout (popen E tr cmd)).
Proof.
  destruct (call_account E cmd st) as (tr & p & Hp & [[Hv H] | [Hv H]]);
    rewrite H; cbn [fst snd logged self trace];
    rewrite spawns_app, spawns_calls_trace;
    (split; [done |]); (split; [by right |]); (split; [done |]).
  - intros out [= <-]. split; [done |]. exists tr. by rewrite Hp.
  - intros out [=].
Qed.

Section StopUnheard.

Variable E : env.


End StopUnheard.



(** ** Stopping workers: what can and cannot happen *)

Lemma map_res_raise {A B} (f : A -> res B) (l : list A) e :
  map_res f l = Raise e -> exists x, x ∈ l /\ f x = Raise e.
Proof.
  induction l as [|x r IH]; [done |]. cbn.
  destruct (f x) as [y | e'] eqn:Hx; cbn.
  - destruct (map_res f r) as [ys | e'']; [done |]. cbn. intros [= ->].
    destruct IH as (x' & Hin & Hf); [done |]. exists x'. split; [by right | done].
  - intros [= ->]. exists x. split; [by left | done].
Qed.

Lemma int_of_str_raise s e :
  int_of_str s = Raise e -> e = ValueError \/ e = NotModelled.
Proof.
  unfold int_of_str. destruct (negb (is_ascii_str s)); [intros [= <-]; by right |].
  destruct (rstrip (lstrip s)) as [|c r].
  - destruct (digits 0 false ""); [done | intros [= <-]; by left].
  - match goal with
    | |- (let (_, _) := ?x in _) = _ -> _ => destruct x as [neg ds]
    end.
    destruct (digits 0 false ds); [done | intros [= <-]; by left].
Qed.

Lemma py_int_raise v e :
  py_int v = Raise e -> e = ValueError \/ e = NotModelled \/ e = TypeError.
Proof.
  destruct v; cbn; try (intros [= <-]; auto); try done.
  intros H. apply int_of_str_raise in H as [-> | ->]; auto.
Qed.

Section StopOutcome.

Variable E : env.

(** The three ways [stop_workers] can go: nothing to do, an error
    before the cancel call, or the cancel call (followed by the clean-up
    unless the diagnostic output of the cancel tool does not decode). *)
Lemma stop_workers_outcome ws st :
  (ws = [] /\ stop_workers E ws st = (st, Ok tt))
  \/ (ws <> [] /\ exists e,
        e <> UnicodeDecodeError
        /\ res_bind (map_res py_int ws)
             (fun zs => map_res (job_of (jobs (self st))) zs) = Raise e
        /\ stop_workers E ws st = (st, Raise e))
  \/ (ws <> [] /\ exists zs js tr p,
        map_res py_int ws = Ok zs
        /\ map_res (job_of (jobs (self st))) zs = Ok js
        /\ p = popen E tr (cancel_command (self st) :: js)
        /\ ((utf8_valid (stderr p) = true
             /\ stop_workers E ws st
                = ({| self := set_jobs (self st)
                                (removed zs (jobs (self st)));
                      trace := trace st
                               ++ calls_trace [cancel_command (self st) :: js]
                                    (complaint p) |},
                   Ok tt))
            \/ (utf8_valid (stderr p) = false
                /\ stop_workers E ws st
                   = (logged st
                        (calls_trace [cancel_command (self st) :: js] []),
                      Raise UnicodeDecodeError)))).
Proof.
  destruct ws as [|v r]; [by left |]. right.
  assert (v :: r <> []) as Hne by done. revert Hne.
  unfold stop_workers. generalize (v :: r). clear v r. intros ws Hne.
  destruct (map_res py_int ws) as [zs | e] eqn:Hint.
  - erewrite bind_ok by (unfold lift; reflexivity).
    erewrite bind_ok by reflexivity.
    destruct (map_res (job_of (jobs (self st))) zs) as [js | e] eqn:Hjobs.
    + right. split; [done |].
      destruct (call_account E (cancel_command (self st) :: js) st)
        as (tr & p & Hp & [[Hv H] | [Hv H]]);
        exists zs, js, tr, p; (split; [done |]); (split; [done |]);
        (split; [done |]); [left | right]; (split; [done |]).
      * erewrite bind_ok by (unfold lift; reflexivity).
        erewrite bind_ok by exact H. by rewrite cleanup_spec.
      * erewrite bind_ok by (unfold lift; reflexivity).
        by erewrite bind_raise by exact H.
    + left. split; [done |]. exists e. cbn [res_bind].
      split; [| split; [done |]].
      * apply map_res_raise in Hjobs as (w & _ & Hw). unfold job_of in Hw.
        destruct (jobs (self st) !! w); [done |]. by injection Hw as <-.
      * by erewrite bind_raise by (unfold lift; reflexivity).
  - left. split; [done |]. exists e. cbn [res_bind].
    split; [| split; [done |]].
    + apply map_res_raise in Hint as (v & _ & Hv).
      apply py_int_raise in Hv as [-> | [-> | ->]]; done.
    + by erewrite bind_raise by (unfold lift; reflexivity).
Qed.

End StopOutcome.

Lemma map_res_ok_Forall2 {A B} (f : A -> res B) (l : list A) l' :
  map_res f l = Ok l' -> Forall2 (fun x y => f x = Ok y) l l'.
Proof.
  revert l'. induction l as [|x r IH]; intros l'; cbn.
  - intros [= <-]. constructor.
  - destruct (f x) as [y | e] eqn:Hx; [| done]. cbn.
    destruct (map_res f r) as [ys | e]; [| done]. cbn. intros [= <-].
    constructor; [done | by apply IH].
Qed.

Lemma removed_subseteq (zs : list Z) (m : gmap Z string) : removed zs m ⊆ m.
Proof.
  apply map_subseteq_spec. intros k v. rewrite lookup_removed.
  by destruct (decide (k ∈ zs)).
Qed.

(** X5. [stop_workers] only ever shrinks the registry: whatever it is
    given and however it ends, the configuration and the counter are as
    before, every entry of the registry afterwards was there before, no
    file is opened, and at most one process is started, which is the
    cancel command applied to jobs of the registry. *)
Theorem stop_workers_only_shrinks (E : env) (ws : list pyval) (st : state) :
  let st' := (stop_workers E ws st).1 in
  same_configuration (self st') (self st)
  /\ n (self st') = n (self st)
  /\ jobs (self st') ⊆ jobs (self st)
  /\ exists tr',
       trace st' = trace st ++ tr'
       /\ opened tr' = []
       /\ (spawns tr' = []
           \/ exists js,
                spawns tr' = [cancel_command (self st) :: js]
                /\ Forall (fun j => exists w, jobs (self st) !! w = Some j) js).
Proof.
  cbn zeta.
  assert (forall js zs,
            map_res (job_of (jobs (self st))) zs = Ok js ->
            Forall (fun j => exists w, jobs (self st) !! w = Some j) js)
    as Hreg.
  { intros js zs H. apply map_res_ok_Forall2 in H.
    induction H as [|w j zs' js' Hw _ IH]; constructor; [| done].
    unfold job_of in Hw. exists w.
    destruct (jobs (self st) !! w); [by injection Hw as -> | done]. }
  destruct (stop_workers_outcome E ws st)
    as [[_ ->] | [(_ & e & _ & _ & ->) | (_ & zs & js & tr & p & _ & Hjs & _ &
                                          [[_ ->] | [_ ->]])]];
    cbn [fst self trace logged set_jobs n jobs submit_command cancel_command
           job_header _command_template same_configuration].
  - repeat split; try done. exists []. by rewrite app_nil_r; auto.
  - repeat split; try done. exists []. by rewrite app_nil_r; auto.
  - repeat split; try done; [apply removed_subseteq |].
    eexists. split; [done |]. split; [apply opened_calls_trace |].
    right. exists js. rewrite spawns_calls_trace. split; [done | by eapply Hreg].
  - repeat split; try done.
    eexists. split; [done |]. split; [apply opened_calls_trace |].
    right. exists js. rewrite spawns_calls_trace. split; [done | by eapply Hreg].
Qed.

(** X6. A failing [stop_workers] never touches the registry: whatever
    exception of Python it raises, the adapter is as before.
    [TypeError] (a slot that is not a number or a text) and [KeyError]
    (a slot that is not registered) are raised before anything
    happened, with the whole state as before; [UnicodeDecodeError] is
    raised after the cancel call was issued, so the jobs named in that
    call are cancelled while their slots stay registered. *)
Theorem stop_workers_failure_keeps_registry (E : env) (ws : list pyval)
    (st : state) (e : exn) :
  (stop_workers E ws st).2 = Raise e ->
  e <> NotModelled ->
  self (stop_workers E ws st).1 = self st
  /\ (e = KeyError \/ e = TypeError -> (stop_workers E ws st).1 = st)
  /\ (e = UnicodeDecodeError ->
      exists js,
        spawns (trace (stop_workers E ws st).1)
        = spawns (trace st) ++ [cancel_command (self st) :: js]).
Proof.
  destruct (stop_workers_outcome E ws st)
    as [[_ ->] | [(_ & e' & Hne & _ & ->) | (_ & zs & js & tr & p & _ & _ & _ &
                                             [[_ ->] | [_ ->]])]];
    cbn [fst snd]; intros [= <-] _; (split; [done |]).
  - split; [done |]. by intros ->.
  - split; [by intros [? | ?] |]. intros _. exists js. cbn [logged trace].
    by rewrite spawns_app, spawns_calls_trace.
Qed.

(** X7. Stopping is not idempotent: once [stop_workers] has removed a
    non-empty list of registered slots, asking again for the same slots
    raises [KeyError] and leaves the state as the first call left it. *)
Theorem stop_workers_twice_raises (E : env) (st : state) (ws : list Z) :
  ws <> [] ->
  (forall w, w ∈ ws -> is_Some (jobs (self st) !! w)) ->
  (forall tr js,
     utf8_valid (stderr (popen E tr (cancel_command (self st) :: js)))
     = true) ->
  exists st',
    stop_workers E (map PInt ws) st = (st', Ok tt)
    /\ stop_workers E (map PInt ws) st' = (st', Raise KeyError).
Proof.
  intros Hne Hin Herr.
  destruct (stop_workers_registered E st ws Hne Hin Herr)
    as (js & tr' & _ & _ & Heq).
  eexists. split; [exact Heq |].
  apply stop_workers_absent. destruct ws as [|w r]; [done |].
  exists w. split; [by left |]. cbn [self jobs set_jobs].
  rewrite lookup_removed. by rewrite decide_True by (by left).
Qed.

(** ** Starting workers: the registry, the counter and the files *)

Lemma split_head (sep : ascii) (s : string) :
  exists x r, split sep s = x :: r.
Proof.
  destruct s as [|c s]; [by eexists _, _ |]. cbn.
  destruct (Ascii.eqb c sep); [by eexists _, _ |].
  destruct (split sep s); by eexists _, _.
Qed.

Lemma split_dot_free (s : string) :
  Forall (fun x => dot_free x = true) (split "." s).
Proof.
  induction s as [|c s IH]; [by repeat constructor |]. cbn [split].
  destruct (Ascii.eqb c ".") eqn:Hc; [by constructor |].
  destruct (split "." s) as [|hd tl]; [by repeat constructor; cbn; rewrite Hc |].
  inversion IH as [|? ? Hhd Htl]; subst.
  constructor; [| done]. cbn. by rewrite Hc, Hhd.
Qed.

(** The job identifier read off a submission output is its text up to
    the first dot. *)
Lemma first_segment (t : string) :
  exists job, py_index (split "." t) 0 = Ok job /\ dot_free job = true.
Proof.
  pose proof (split_dot_free t) as Hall.
  destruct (split_head "." t) as (x & r & Hs). rewrite Hs in Hall |- *.
  exists x. split; [| by inversion Hall].
  unfold py_index. cbn zeta.
  destruct ((0 <? 0) || (Z.of_nat (length (x :: r)) <=? 0)) eqn:Hc; [| done].
  apply orb_true_iff in Hc as [Hc | Hc]; [discriminate |].
  apply Z.leb_le in Hc. cbn [length] in Hc. lia.
Qed.

Section StartAccount.

Variable E : env.

(** One round of the loop with everything it leaves behind.  The file
    of the round is opened in any case; it is released by [tmpfile] when
    the round succeeds, and on a failure only if [tmpfile] guards its
    block. *)
Lemma start_one_account ws st :
  exists tr',
    opened tr' = [tmpfile E (trace st)]
    /\ written tr' = match rendered (self (minted st)) with
                     | Ok text => [text]
                     | Raise _ => []
                     end
    /\ ((exists e,
           start_one E ws st = (logged (minted st) tr', Raise e)
           /\ deleted tr'
              = (if tmpfile_guards E then [tmpfile E (trace st)] else [])
           /\ ((spawns tr' = []
                /\ rendered (self (minted st)) = Raise e)
               \/ (spawns tr' = [[submit_command (self st);
                                  tmpfile E (trace st)]]
                   /\ e = UnicodeDecodeError
                   /\ exists tr p,
                        p = popen E tr [submit_command (self st);
                                        tmpfile E (trace st)]
                        /\ (utf8_valid (stderr p) = false
                            \/ utf8_valid (stdout p) = false))))
        \/ (exists job tr p,
              p = popen E tr [submit_command (self st); tmpfile E (trace st)]
              /\ utf8_valid (stdout p) = true
              /\ py_index (split "." (string_of_list_byte (stdout p))) 0
                 = Ok job
              /\ dot_free job = true
              /\ spawns tr' = [[submit_command (self st);
                                tmpfile E (trace st)]]
              /\ deleted tr' = [tmpfile E (trace st)]
              /\ start_one E ws st
                 = ({| self := set_jobs (self (minted st))
                                 (<[n (self st) + 1 := job]> (jobs (self st)));
                       trace := trace st ++ tr' |},
                    Ok (ws ++ [n (self st) + 1])))).
Proof.
  rewrite start_one_unfold. cbn zeta.
  set (fn := tmpfile E (trace st)).
  set (bye := if tmpfile_guards E then [FileRemove fn] else []).
  assert (opened bye = []) as Hbo
    by (subst bye; by destruct (tmpfile_guards E)).
  assert (deleted bye = if tmpfile_guards E then [fn] else []) as Hbd
    by (subst bye; by destruct (tmpfile_guards E)).
  assert (spawns bye = []) as Hbs
    by (subst bye; by destruct (tmpfile_guards E)).
  assert (written bye = []) as Hbw
    by (subst bye; by destruct (tmpfile_guards E)).
  destruct (rendered (self (minted st))) as [text | e] eqn:Hr.
  - set (st1 := logged (minted st) [FileOpen fn; FileWrite fn text]).
    change (submit_command (self st1)) with (submit_command (self st)).
    destruct (call_account E [submit_command (self st); fn] st1)
      as (tr & p & Hp & [[Hv ->] | [Hv ->]]).
    + unfold decode. destruct (utf8_valid (stdout p)) eqn:Hout; cbn [res_bind].
      * destruct (first_segment (string_of_list_byte (stdout p)))
          as (job & Hjob & Hfree).
        rewrite Hjob.
        exists ([FileOpen fn; FileWrite fn text]
                ++ calls_trace [[submit_command (self st); fn]] (complaint p)
                ++ [FileRemove fn]).
        rewrite !opened_app, !deleted_app, !written_app, opened_calls_trace,
          deleted_calls_trace, written_calls_trace.
        split; [done |]. split; [done |]. right.
        exists job, tr, p. split; [done |]. split; [done |].
        split; [done |]. split; [done |].
        split; [by rewrite !spawns_app, spawns_calls_trace |].
        split; [done |].
        subst st1. cbn. by rewrite <- !app_assoc.
      * exists ([FileOpen fn; FileWrite fn text]
                ++ calls_trace [[submit_command (self st); fn]] (complaint p)
                ++ bye).
        rewrite !opened_app, !deleted_app, !written_app, opened_calls_trace,
          deleted_calls_trace, written_calls_trace, Hbo, Hbd, Hbw.
        split; [done |]. split; [done |]. left. exists UnicodeDecodeError.
        split; [subst st1; by rewrite !logged_logged |]. split; [done |].
        right.
        split; [by rewrite !spawns_app, spawns_calls_trace, Hbs |].
        split; [done |]. exists tr, p. auto.
    + exists ([FileOpen fn; FileWrite fn text]
              ++ calls_trace [[submit_command (self st); fn]] []
              ++ bye).
      rewrite !opened_app, !deleted_app, !written_app, opened_calls_trace,
        deleted_calls_trace, written_calls_trace, Hbo, Hbd, Hbw.
      split; [done |]. split; [done |]. left. exists UnicodeDecodeError.
      split; [subst st1; by rewrite !logged_logged |]. split; [done |].
      right. split; [by rewrite !spawns_app, spawns_calls_trace, Hbs |].
      split; [done |]. exists tr, p. auto.
  - exists (FileOpen fn :: bye).
    change (FileOpen fn :: bye) with ([FileOpen fn] ++ bye).
    rewrite opened_app, deleted_app, spawns_app, written_app, Hbo, Hbd, Hbs,
      Hbw.
    split; [done |]. split; [done |]. left. exists e. split; [done |].
    split; [done |]. by left.
Qed.

End StartAccount.

Lemma slots_from_bounds base k w :
  w ∈ slots_from base k -> base < w <= base + Z.of_nat k.
Proof.
  intros Hin. destruct (slots_from_between base k) as [_ Hb].
  rewrite Forall_forall in Hb. by apply Hb.
Qed.

Lemma consistent_minted st : consistent (self st) -> consistent (self (minted st)).
Proof.
  intros [Hn Hj]. split; [cbn; lia |]. intros w j Hw. cbn in Hw |- *.
  destruct (Hj w j Hw) as [Hb Hd]. split; [lia | done].
Qed.

Lemma consistent_insert st job :
  consistent (self st) -> dot_free job = true ->
  consistent (set_jobs (self (minted st))
                (<[n (self st) + 1 := job]> (jobs (self st)))).
Proof.
  intros [Hn Hj] Hfree. split; [cbn; lia |]. intros w j. cbn.
  destruct (decide (w = n (self st) + 1)) as [-> | Hne].
  - rewrite lookup_insert_eq. intros [= <-]. split; [lia | done].
  - rewrite lookup_insert_ne by done. intros Hw.
    destruct (Hj w j Hw) as [Hb Hd]. split; [lia | done].
Qed.

Lemma consistent_shrink (a b : adapter) :
  consistent a -> n b = n a -> jobs b ⊆ jobs a -> consistent b.
Proof.
  intros [Hn Hj] Hnb Hsub. split; [lia |]. intros w j Hw. rewrite Hnb.
  apply Hj. by eapply lookup_weaken.
Qed.

Lemma rendered_ok (a : adapter) :
  renders a -> exists text, rendered a = Ok text.
Proof.
  intros Hr. destruct (Hr (n a)) as [cmd Hcmd]. unfold rendered.
  rewrite Hcmd. cbn [res_bind]. rewrite script_template_renders. by eexists.
Qed.

Section StartLoop.

Variable E : env.

Lemma stop_workers_shrinks ws st :
  n (self (stop_workers E ws st).1) = n (self st)
  /\ jobs (self (stop_workers E ws st).1) ⊆ jobs (self st)
  /\ same_configuration (self (stop_workers E ws st).1) (self st).
Proof.
  destruct (stop_workers_outcome E ws st)
    as [[_ ->] | [(_ & e & _ & _ & ->) | (_ & zs & js & tr & p & _ & _ & _ &
                                          [[_ ->] | [_ ->]])]];
    cbn; repeat split; try done.
  apply removed_subseteq.
Qed.

Lemma scale_down_shrinks w st :
  n (self (scale_down E w st).1) = n (self st)
  /\ jobs (self (scale_down E w st).1) ⊆ jobs (self st)
  /\ same_configuration (self (scale_down E w st).1) (self st).
Proof.
  assert (n (self st) = n (self st) /\ jobs (self st) ⊆ jobs (self st)
          /\ same_configuration (self st) (self st)) as Hrefl
    by (by repeat split).
  destruct w as [| | | |d]; try exact Hrefl.
  destruct (names_of d) as [names | e] eqn:Hnames.
  - destruct (job_ids_of E names) as [ids | e] eqn:Hids.
    + assert (scale_down E (PDict d) st
              = stop_workers E (map hkey_val (set_iter E ids)) st) as ->.
      { unfold scale_down.
        erewrite bind_ok by (unfold lift; by rewrite Hnames).
        by erewrite bind_ok by (unfold lift; by rewrite Hids). }
      apply stop_workers_shrinks.
    + assert (scale_down E (PDict d) st = (st, Raise e)) as ->; [| done].
      unfold scale_down.
      erewrite bind_ok by (unfold lift; by rewrite Hnames).
      by erewrite bind_raise by (unfold lift; by rewrite Hids).
  - assert (scale_down E (PDict d) st = (st, Raise e)) as ->; [| done].
    unfold scale_down.
    by erewrite bind_raise by (unfold lift; by rewrite Hnames).
Qed.

(** The loop of [start_workers]: invariant, files, submissions, counter
    and registry.  Every round opens one file and takes one slot number;
    a file stays behind only for the round that raised, and only when
    [tmpfile] does not guard its block. *)
Lemma start_loop_account k ws st :
  exists tr',
    trace (start_loop E k ws st).1 = trace st ++ tr'
    /\ same_configuration (self (start_loop E k ws st).1) (self st)
    /\ (consistent (self st) -> consistent (self (start_loop E k ws st).1))
    /\ match (start_loop E k ws st).2 with
       | Ok _ => opened tr' = deleted tr' /\ length (opened tr') = k
       | Raise _ =>
           exists fn,
             opened tr'
             = deleted tr' ++ (if tmpfile_guards E then [] else [fn])
       end
    /\ (length (opened tr') <= k)%nat
    /\ Forall (fun argv => exists fn, fn ∈ opened tr'
                                      /\ argv = [submit_command (self st); fn])
         (spawns tr')
    /\ n (self (start_loop E k ws st).1)
       = n (self st) + Z.of_nat (length (opened tr'))
    /\ (forall w j,
          jobs (self (start_loop E k ws st).1) !! w = Some j ->
          jobs (self st) !! w = Some j
          \/ n (self st) < w <= n (self (start_loop E k ws st).1))
    /\ (exists slots,
          between (n (self st)) (n (self (start_loop E k ws st).1)) slots
          /\ scripts_for (self st) slots (written tr')).
Proof.
  revert ws st. induction k as [|k IH]; intros ws st.
  - exists []. cbn. rewrite app_nil_r. split; [done |].
    split; [by repeat split |]. split; [done |]. split; [done |].
    split; [lia |]. split; [constructor |]. split; [lia |].
    split; [by left |]. exists []. split; [apply between_nil | constructor].
  - cbn [start_loop].
    assert (exists slots,
              between (n (self st)) (n (self st) + 1) slots
              /\ scripts_for (self st) slots
                   match rendered (self (minted st)) with
                   | Ok text => [text]
                   | Raise _ => []
                   end) as (s1 & Hb1 & Hs1).
    { destruct (rendered (self (minted st))) as [text | e] eqn:Hr.
      - exists [n (self st) + 1]. split.
        + split; [repeat constructor | constructor; [lia | constructor]].
        + constructor; [exact Hr | constructor].
      - exists []. split; [apply between_nil | constructor]. }
    destruct (start_one_account E ws st)
      as (t1 & Ho & Hwr & [(e & H & Hd & Hsp)
                          | (job & tr & p & _ & _ & _ & Hfree & Hsp & Hd & H)]).
    + erewrite bind_raise by exact H. exists t1.
      cbn [fst snd logged trace self].
      split; [done |]. split; [done |].
      split; [apply consistent_minted |].
      split; [exists (tmpfile E (trace st)); rewrite Ho, Hd;
              by destruct (tmpfile_guards E) |].
      split; [rewrite Ho; cbn; lia |].
      split.
      { destruct Hsp as [[-> _] | (-> & _)]; [constructor |].
        constructor; [| constructor]. eexists. rewrite Ho.
        split; [by left | done]. }
      split; [rewrite Ho; cbn; lia |]. split; [by left |].
      exists s1. rewrite Hwr. by split.
    + erewrite bind_ok by exact H.
      set (st1 := {| self := _; trace := _ |}).
      destruct (IH (ws ++ [n (self st) + 1]) st1)
        as (t2 & Ht & Hcfg & Hcons & Hod & Hlen & Hall & Hn & Hreg
            & s2 & Hb2 & Hs2).
      exists (t1 ++ t2). rewrite Ht. subst st1. cbn [trace self] in *.
      split; [by rewrite app_assoc |].
      split; [destruct Hcfg as (? & ? & ? & ?); by repeat split |].
      split; [intros Hc; apply Hcons; by apply consistent_insert |].
      rewrite opened_app, deleted_app, spawns_app, written_app, Ho, Hd, Hsp,
        Hwr.
      split.
      { destruct (start_loop E k _ _).2 as [l | e'].
        - destruct Hod as [Hod Hk]. split; [by rewrite Hod | cbn; lia].
        - destruct Hod as [fn Hod]. exists fn. by rewrite Hod. }
      split; [cbn; lia |].
      split.
      { constructor.
        - eexists. split; [by left | done].
        - eapply Forall_impl; [exact Hall |]. cbn.
          intros argv (fn & Hin & ->). exists fn.
          split; [by right | done]. }
      split; [rewrite Hn; cbn; lia |].
      split.
      { intros w j Hw. rewrite Hn.
        destruct (Hreg w j Hw) as [Hold | Hnew].
        * cbn in Hold.
          destruct (decide (w = n (self st) + 1)) as [-> | Hne];
            [right; cbn; lia |].
          left. by rewrite lookup_insert_ne in Hold.
        * right. rewrite Hn in Hnew. cbn in Hnew |- *. lia. }
      exists (s1 ++ s2). split.
      * apply between_app with (mid := n (self st) + 1);
          [rewrite Hn; cbn; lia | done | exact Hb2].
      * apply Forall2_app; [exact Hs1 | exact Hs2].
Qed.

(** With a scheduler that prints valid UTF-8 and a template that
    renders, every round succeeds. *)
Lemma start_loop_success k ws st :
  decodable E -> renders (self st) -> consistent (self st) ->
  exists st',
    start_loop E k ws st = (st', Ok (ws ++ slots_from (n (self st)) k))
    /\ n (self st') = n (self st) + Z.of_nat k
    /\ size (jobs (self st')) = (size (jobs (self st)) + k)%nat
    /\ (forall w, w ∉ slots_from (n (self st)) k ->
                  jobs (self st') !! w = jobs (self st) !! w)
    /\ (forall w, w ∈ slots_from (n (self st)) k ->
                  is_Some (jobs (self st') !! w)).
Proof.
  intros Hdec. revert ws st. induction k as [|k IH]; intros ws st Hr Hc.
  - exists st. cbn. rewrite app_nil_r. repeat split; try done; try lia.
    intros w Hw. by apply elem_of_nil in Hw.
  - cbn [start_loop slots_from].
    destruct (start_one_account E ws st)
      as (t1 & _ & _
          & [(e & _ & _ & [[_ Hbad] | (_ & _ & tr & p & -> & Hbad)])
            | (job & tr & p & _ & _ & _ & Hfree & _ & _ & H)]).
    + destruct (rendered_ok (self (minted st))) as [text Ht]; [done |].
      by rewrite Ht in Hbad.
    + destruct (Hdec tr [submit_command (self st); tmpfile E (trace st)])
        as [Ho He]. destruct Hbad as [Hb | Hb]; congruence.
    + erewrite bind_ok by exact H.
      set (st1 := {| self := _; trace := _ |}).
      destruct (IH (ws ++ [n (self st) + 1]) st1)
        as (st' & -> & Hn & Hsize & Hother & Hnew);
        [done | by apply consistent_insert |].
      subst st1. cbn [self n jobs set_jobs minted set_n] in *.
      exists st'. split; [by rewrite <- app_assoc |]. split; [lia |].
      assert (jobs (self st) !! (n (self st) + 1) = None) as Hfresh.
      { destruct (jobs (self st) !! (n (self st) + 1)) as [j |] eqn:Hj;
          [| done].
        destruct Hc as [_ Hc]. destruct (Hc _ _ Hj). lia. }
      split; [rewrite Hsize, map_size_insert_None by done; lia |].
      split.
      * intros w Hw. apply not_elem_of_cons in Hw as [Hne Hw].
        rewrite Hother by done. by rewrite lookup_insert_ne.
      * intros w Hw. apply elem_of_cons in Hw as [-> | Hw]; [| by apply Hnew].
        rewrite Hother; [by rewrite lookup_insert_eq |].
        intros Hin. apply slots_from_bounds in Hin. lia.
Qed.

End StartLoop.

(** X8. With a scheduler that prints valid UTF-8 and a command template
    that renders, on a consistent adapter [start_workers(count)] returns
    the next [count] slot numbers [n+1 .. n+count], advances the counter
    by [count], adds exactly these slots to the registry (each with a
    job text without a dot) and leaves every other entry alone. *)
Theorem start_workers_registers_new_slots (E : env) (st : state)
    (count : Z) :
  decodable E -> renders (self st) -> consistent (self st) ->
  exists st',
    start_workers E count st
    = (st', Ok (slots_from (n (self st)) (Z.to_nat count)))
    /\ n (self st') = n (self st) + Z.of_nat (Z.to_nat count)
    /\ size (jobs (self st')) = (size (jobs (self st)) + Z.to_nat count)%nat
    /\ (forall w, w ∉ slots_from (n (self st)) (Z.to_nat count) ->
                  jobs (self st') !! w = jobs (self st) !! w)
    /\ (forall w, w ∈ slots_from (n (self st)) (Z.to_nat count) ->
                  exists job, jobs (self st') !! w = Some job
                              /\ dot_free job = true)
    /\ consistent (self st').
Proof.
  intros Hdec Hr Hc. unfold start_workers.
  destruct (start_loop_success E (Z.to_nat count) [] st Hdec Hr Hc)
    as (st' & Heq & Hn & Hsize & Hother & Hnew).
  destruct (start_loop_account E (Z.to_nat count) [] st)
    as (_ & _ & _ & Hcons & _).
  rewrite Heq in Hcons. cbn [fst] in Hcons. specialize (Hcons Hc).
  exists st'. split; [done |]. split; [done |]. split; [done |].
  split; [done |]. split; [| done].
  intros w Hw. destruct (Hnew w Hw) as [job Hjob]. exists job.
  split; [done |]. destruct Hcons as [_ Hj]. by destruct (Hj w job Hjob).
Qed.

(** X9. The temporary files of [start_workers].  Every round opens at
    most one file, and every process started is the submit command
    applied to one of these files.  When the call returns, one file was
    opened per round and [tmpfile] has released every one of them.
    However the call ends, at most one file is left behind, the last one
    opened, and none if [tmpfile] guards its block.  If it does not, a
    call that ends on a [UnicodeDecodeError] leaves the file of the
    failing round behind: nothing in [job_file] or [start_workers]
    removes it. *)
Theorem start_workers_file_account (E : env) (st : state) (count : Z) :
  exists tr',
    trace (start_workers E count st).1 = trace st ++ tr'
    /\ (length (opened tr') <= Z.to_nat count)%nat
    /\ Forall (fun argv => exists fn, fn ∈ opened tr'
                                      /\ argv = [submit_command (self st); fn])
         (spawns tr')
    /\ (forall l,
          (start_workers E count st).2 = Ok l ->
          opened tr' = deleted tr' /\ length (opened tr') = Z.to_nat count)
    /\ (opened tr' = deleted tr'
        \/ exists fn, opened tr' = deleted tr' ++ [fn])
    /\ (tmpfile_guards E = true -> opened tr' = deleted tr')
    /\ (tmpfile_guards E = false ->
        (start_workers E count st).2 = Raise UnicodeDecodeError ->
        exists fn, opened tr' = deleted tr' ++ [fn]).
Proof.
  unfold start_workers.
  destruct (start_loop_account E (Z.to_nat count) [] st)
    as (tr' & Ht & _ & _ & Hod & Hlen & Hall & _).
  exists tr'. split; [done |]. split; [done |]. split; [done |].
  destruct (start_loop E (Z.to_nat count) [] st).2 as [l | e].
  - destruct Hod as [Hod Hk]. split; [by intros l' _ |].
    split; [by left |]. split; [done | by intros _ [=]].
  - destruct Hod as [fn Hod]. split; [by intros l' [=] |].
    destruct (tmpfile_guards E).
    + rewrite app_nil_r in Hod. split; [by left |]. split; [done | done].
    + split; [right; by exists fn |]. split; [done |]. intros _ _. by exists fn.
Qed.

Section History.

Variable E : env.

Lemma run_call_consistent c st :
  consistent (self st) -> consistent (self (run_call E c st).1).
Proof.
  intros Hc. destruct c as [count | ws | target | w |]; cbn [run_call].
  - destruct (start_loop_account E (Z.to_nat count) [] st)
      as (_ & _ & _ & Hcons & _).
    unfold start_workers. destruct (start_loop E _ _ _). by apply Hcons.
  - cbn. destruct (stop_workers_shrinks E ws st) as (Hn & Hsub & _).
    by eapply consistent_shrink.
  - unfold scale_up. erewrite bind_ok by reflexivity.
    destruct (start_loop_account E
                (Z.to_nat (target - Z.of_nat (size (jobs (self st))))) [] st)
      as (_ & _ & _ & Hcons & _).
    unfold start_workers. destruct (start_loop E _ _ _). by apply Hcons.
  - cbn. destruct (scale_down_shrinks E w st) as (Hn & Hsub & _).
    by eapply consistent_shrink.
  - rewrite job_script_eq. by apply consistent_minted.
Qed.

Lemma run_consistent cs st :
  consistent (self st) -> consistent (self (run E cs st).1).
Proof.
  revert st. induction cs as [|c r IH]; intros st Hc; [done |].
  cbn [run]. pose proof (run_call_consistent c st Hc) as H1.
  destruct (run_call E c st) as [st1 out1].
  specialize (IH st1 H1). by destruct (run E r st1).
Qed.

End History.

(** ** The slot counter as the source of slot numbers *)

Section Mints.

Variable E : env.

Lemma stop_workers_opens_nothing ws st :
  exists tr',
    trace (stop_workers E ws st).1 = trace st ++ tr'
    /\ opened tr' = [] /\ written tr' = [].
Proof.
  destruct (stop_workers_outcome E ws st)
    as [[_ ->] | [(_ & e & _ & _ & ->) | (_ & zs & js & tr & p & _ & _ & _ &
                                          [[_ ->] | [_ ->]])]];
    cbn [fst trace logged].
  - exists []. by rewrite app_nil_r.
  - exists []. by rewrite app_nil_r.
  - eexists. split; [done |].
    split; [apply opened_calls_trace | apply written_calls_trace].
  - eexists. split; [done |].
    split; [apply opened_calls_trace | apply written_calls_trace].
Qed.

(** [scale_down] does nothing, fails on its argument, or is a
    [stop_workers]. *)
Lemma scale_down_cases w st :
  scale_down E w st = (st, Ok tt)
  \/ (exists e, scale_down E w st = (st, Raise e))
  \/ exists ws, scale_down E w st = stop_workers E ws st.
Proof.
  destruct w as [| | | |d]; try by left.
  right. destruct (names_of d) as [names | e] eqn:Hnames.
  - destruct (job_ids_of E names) as [ids | e] eqn:Hids.
    + right. eexists. unfold scale_down.
      erewrite bind_ok by (unfold lift; by rewrite Hnames).
      by erewrite bind_ok by (unfold lift; by rewrite Hids).
    + left. exists e. unfold scale_down.
      erewrite bind_ok by (unfold lift; by rewrite Hnames).
      by erewrite bind_raise by (unfold lift; by rewrite Hids).
  - left. exists e. unfold scale_down.
    by erewrite bind_raise by (unfold lift; by rewrite Hnames).
Qed.

Lemma scale_down_opens_nothing w st :
  exists tr',
    trace (scale_down E w st).1 = trace st ++ tr'
    /\ opened tr' = [] /\ written tr' = [].
Proof.
  destruct (scale_down_cases w st) as [-> | [[e ->] | [ws ->]]].
  - exists []. by rewrite app_nil_r.
  - exists []. by rewrite app_nil_r.
  - apply stop_workers_opens_nothing.
Qed.

Lemma scripts_for_same (a b : adapter) slots texts :
  same_configuration a b ->
  scripts_for a slots texts -> scripts_for b slots texts.
Proof.
  intros (_ & _ & Hh & Ht) Hall.
  induction Hall as [|z text slots texts Hz _ IH]; constructor; [| done].
  rewrite <- Hz. unfold rendered. cbn. by rewrite Hh, Ht.
Qed.

(** One call of a history: the counter moves by the number of scripts
    rendered, one per file a round of [start_workers] opened and one per
    direct [job_script]; a slot that appears in the registry is a slot
    number taken during the call; the scripts written are those of
    increasing slot numbers taken during the call. *)
Lemma run_call_mints c st :
  exists tr',
    trace (run_call E c st).1 = trace st ++ tr'
    /\ same_configuration (self (run_call E c st).1) (self st)
    /\ n (self (run_call E c st).1)
       = n (self st)
         + Z.of_nat (length (opened tr') + bare_renderings [c])
    /\ (forall w j,
          jobs (self (run_call E c st).1) !! w = Some j ->
          jobs (self st) !! w = Some j
          \/ n (self st) < w <= n (self (run_call E c st).1))
    /\ (exists slots,
          between (n (self st)) (n (self (run_call E c st).1)) slots
          /\ scripts_for (self st) slots (written tr')).
Proof.
  destruct c as [count | ws | target | w |]; cbn [run_call bare_renderings].
  - unfold start_workers.
    destruct (start_loop_account E (Z.to_nat count) [] st)
      as (tr' & Ht & Hcfg & _ & _ & _ & _ & Hn & Hreg & Hsl).
    destruct (start_loop E (Z.to_nat count) [] st) as [st' r].
    cbn [fst] in *. exists tr'. split; [done |]. split; [done |].
    split; [rewrite Hn; lia | by split].
  - cbn [fst].
    destruct (stop_workers_opens_nothing ws st) as (tr' & Ht & Ho & Hw).
    destruct (stop_workers_shrinks E ws st) as (Hn & Hsub & Hcfg).
    exists tr'. split; [done |]. split; [done |]. rewrite Ho, Hw, Hn.
    split; [cbn; lia |]. split.
    + intros w j Hj. left. by eapply lookup_weaken.
    + exists []. split; [apply between_nil | constructor].
  - unfold scale_up. erewrite bind_ok by reflexivity. unfold start_workers.
    destruct (start_loop_account E
                (Z.to_nat (target - Z.of_nat (size (jobs (self st))))) [] st)
      as (tr' & Ht & Hcfg & _ & _ & _ & _ & Hn & Hreg & Hsl).
    destruct (start_loop E _ [] st) as [st' r].
    cbn [fst] in *. exists tr'. split; [done |]. split; [done |].
    split; [rewrite Hn; lia | by split].
  - cbn [fst].
    destruct (scale_down_opens_nothing w st) as (tr' & Ht & Ho & Hw).
    destruct (scale_down_shrinks E w st) as (Hn & Hsub & Hcfg).
    exists tr'. split; [done |]. split; [done |]. rewrite Ho, Hw, Hn.
    split; [cbn; lia |]. split.
    + intros w' j Hj. left. by eapply lookup_weaken.
    + exists []. split; [apply between_nil | constructor].
  - rewrite job_script_eq. cbn [fst]. exists [].
    split; [by rewrite app_nil_r |]. split; [by repeat split |].
    split; [cbn; lia |]. split; [intros w j Hj; by left |].
    exists []. split; [apply between_nil | constructor].
Qed.

Lemma bare_renderings_cons c cs :
  bare_renderings (c :: cs) = (bare_renderings [c] + bare_renderings cs)%nat.
Proof. by destruct c. Qed.

Lemma run_mints cs st :
  exists tr',
    trace (run E cs st).1 = trace st ++ tr'
    /\ same_configuration (self (run E cs st).1) (self st)
    /\ n (self (run E cs st).1)
       = n (self st)
         + Z.of_nat (length (opened tr') + bare_renderings cs)
    /\ (forall w j,
          jobs (self (run E cs st).1) !! w = Some j ->
          jobs (self st) !! w = Some j
          \/ n (self st) < w <= n (self (run E cs st).1))
    /\ (exists slots,
          between (n (self st)) (n (self (run E cs st).1)) slots
          /\ scripts_for (self st) slots (written tr')).
Proof.
  revert st. induction cs as [|c r IH]; intros st.
  - exists []. cbn. rewrite app_nil_r. split; [done |].
    split; [by repeat split |]. split; [lia |]. split; [by left |].
    exists []. split; [apply between_nil | constructor].
  - cbn [run]. rewrite bare_renderings_cons.
    destruct (run_call_mints c st)
      as (t1 & Ht1 & Hc1 & Hn1 & Hr1 & s1 & Hb1 & Hs1).
    destruct (run_call E c st) as [st1 out1].
    cbn [fst] in Ht1, Hc1, Hn1, Hr1, Hb1.
    destruct (IH st1) as (t2 & Ht2 & Hc2 & Hn2 & Hr2 & s2 & Hb2 & Hs2).
    destruct (run E r st1) as [st2 out2].
    cbn [fst] in Ht2, Hc2, Hn2, Hr2, Hb2 |- *.
    exists (t1 ++ t2). split; [by rewrite Ht2, Ht1, app_assoc |].
    split.
    { destruct Hc1 as (? & ? & ? & ?), Hc2 as (? & ? & ? & ?).
      repeat split; congruence. }
    rewrite opened_app, length_app, written_app.
    split; [lia |]. split.
    + intros w j Hw. destruct (Hr2 w j Hw) as [Hold | Hnew]; [| right; lia].
      destruct (Hr1 w j Hold) as [Hold1 | Hnew1]; [by left | right; lia].
    + exists (s1 ++ s2). split.
      * apply between_app with (mid := n (self st1)); [lia | done | done].
      * apply Forall2_app; [exact Hs1 |].
        by apply (scripts_for_same (self st1)).
Qed.

(** A round of [start_workers] that opened its file has taken a slot
    number, whether it then succeeds or raises. *)
Lemma start_one_mints ws st :
  exists tr',
    trace (start_one E ws st).1 = trace st ++ tr'
    /\ n (self (start_one E ws st).1)
       = n (self st) + Z.of_nat (length (opened tr')).
Proof.
  destruct (start_one_account E ws st)
    as (tr' & Ho & _
        & [(e & -> & _) | (job & tr & p & _ & _ & _ & _ & _ & _ & ->)]);
    exists tr'; rewrite Ho; cbn; (split; [done | lia]).
Qed.

End Mints.

(** C1. Along any history of calls on one adapter (starts, stops,
    scale operations, direct renderings, some of them possibly failing),
    every list returned by [start_workers] is strictly increasing, lists
    returned by different calls share no slot, and every returned slot is
    above the counter the history started from: the returned slots, read
    in order, form one strictly increasing sequence.

    No slot number is taken twice.  Every rendering takes the number
    after the counter and leaves the counter on it, nothing else moves
    the counter, and this holds round by round: a round of
    [start_workers] that opened its file has used up a number, whether
    it then succeeds or raises.  So the counter after the history is
    the counter before it plus the number of scripts rendered (one per
    file a round opened, one per direct [job_script]), without any
    number given back by a failure or a cancellation; the scripts
    written into files along the history are, in order, the scripts of
    strictly increasing slot numbers, so no slot has its script written
    twice; and every slot that entered the registry, returned to the
    caller or not, lies above the counter the history started from and
    not above the counter it ends with, hence below every number taken
    later. *)
Theorem start_workers_slots_never_reused (E : env) (cs : list call)
    (st : state) :
  let outs := (run E cs st).2 in
  Forall (StronglySorted Z.lt) outs
  /\ (forall i j l1 l2 x,
        i <> j -> outs !! i = Some l1 -> outs !! j = Some l2 ->
        x ∈ l1 -> x ∉ l2)
  /\ StronglySorted Z.lt (concat outs)
  /\ Forall (fun x => n (self st) < x <= n (self (run E cs st).1))
       (concat outs)
  /\ n (self st) <= n (self (run E cs st).1)
  /\ (exists tr' slots,
        trace (run E cs st).1 = trace st ++ tr'
        /\ n (self (run E cs st).1)
           = n (self st)
             + Z.of_nat (length (opened tr') + bare_renderings cs)
        /\ StronglySorted Z.lt slots
        /\ Forall (fun z => n (self st) < z <= n (self (run E cs st).1))
             slots
        /\ scripts_for (self st) slots (written tr'))
  /\ (forall w j,
        jobs (self (run E cs st).1) !! w = Some j ->
        jobs (self st) !! w = Some j
        \/ n (self st) < w <= n (self (run E cs st).1))
  /\ (forall ws st1,
        exists tr',
          trace (start_one E ws st1).1 = trace st1 ++ tr'
          /\ n (self (start_one E ws st1).1)
             = n (self st1) + Z.of_nat (length (opened tr')))
  /\ (forall st1,
        n (self (job_script st1).1) = n (self st1) + 1
        /\ (job_script st1).2 = rendered (self (job_script st1).1)).
Proof.
  cbn zeta. destruct (run_between E cs st) as [Hn [Hs Hb]].
  split; [by apply sorted_concat_each |]. split.
  { intros i j l1 l2 x Hij Hi Hj H1 H2.
    destruct (decide (i < j)%nat) as [Hlt | Hge].
    - pose proof (sorted_concat_lt _ i j l1 l2 x x Hs Hlt Hi Hj H1 H2). lia.
    - assert (j < i)%nat as Hlt by lia.
      pose proof (sorted_concat_lt _ j i l2 l1 x x Hs Hlt Hj Hi H2 H1). lia. }
  split; [done |]. split; [done |]. split; [done |].
  destruct (run_mints E cs st)
    as (tr' & Ht & _ & Hm & Hreg & slots & [Hss Hsb] & Hsf).
  split; [by exists tr', slots |]. split; [done |].
  split; [apply start_one_mints |].
  intros st1. by rewrite job_script_eq.
Qed.


(** X10. The bookkeeping invariant.  A freshly constructed adapter,
    whatever header the subclass installs, has an empty registry and a
    zero counter, and along any history of calls, failing or not, every
    registered slot is a slot that was minted ([0 < slot <= n]) and every
    registered job is a text without a dot. *)
Theorem registry_stays_consistent (E : env) (cs : list call) (st : state)
    (submit cancel : option string) (dirname address : string)
    (args : init_args) (header : option string) :
  (forall a, __init__ submit cancel dirname address args = Ok a ->
             consistent (set_job_header a header))
  /\ (consistent (self st) -> consistent (self (run E cs st).1)).
Proof.
  split; [| apply run_consistent].
  unfold __init__. intros a.
  destruct (negb (truthy cancel) || negb (truthy submit)); [done |].
  destruct (truthy (interface args)); [destruct (extra args) |];
    cbn; intros [= <-]; (split; [done |]); intros w j Hw;
    first [done | by rewrite lookup_empty in Hw].
Qed.


(** X12. Starting and then stopping what was started gives the registry
    back: with a scheduler that prints valid UTF-8, a template that
    renders and a consistent adapter, [stop_workers] applied to the list
    [start_workers] returned succeeds and leaves the registry exactly as
    it was before the start, the counter staying advanced. *)
Theorem start_then_stop_restores_registry (E : env) (st : state)
    (count : Z) :
  decodable E -> renders (self st) -> consistent (self st) ->
  exists st1 l st2,
    start_workers E count st = (st1, Ok l)
    /\ stop_workers E (map PInt l) st1 = (st2, Ok tt)
    /\ jobs (self st2) = jobs (self st)
    /\ n (self st2) = n (self st) + Z.of_nat (Z.to_nat count).
Proof.
  intros Hdec Hr Hc. unfold start_workers.
  destruct (start_loop_success E (Z.to_nat count) [] st Hdec Hr Hc)
    as (st1 & Heq & Hn & _ & Hother & Hnew).
  set (l := slots_from (n (self st)) (Z.to_nat count)) in *.
  exists st1, l. cbn [app] in Heq.
  destruct l as [|w r] eqn:Hl.
  - exists st1. split; [done |]. split; [done |]. split; [| done].
    apply map_eq. intros w. apply Hother. apply not_elem_of_nil.
  - destruct (stop_workers_registered E st1 (w :: r))
      as (js & tr' & _ & _ & Hstop); [done | done | |].
    { intros tr js. apply Hdec. }
    eexists. split; [done |]. split; [exact Hstop |]. cbn [self jobs set_jobs n].
    split; [| done]. apply map_eq. intros k. rewrite lookup_removed.
    destruct (decide (k ∈ w :: r)) as [Hin | Hout]; [| by apply Hother].
    rewrite <- Hl in Hin. apply slots_from_bounds in Hin.
    destruct (jobs (self st) !! k) as [j |] eqn:Hk; [| done].
    destruct Hc as [_ Hc]. destruct (Hc _ _ Hk). lia.
Qed.

(** ** Slot numbers as text, and back *)

Lemma digits_acc (d : Decimal.uint) (acc : positive) :
  digits (Zpos acc) true (NilEmpty.string_of_uint d)
  = Some (Zpos (Pos.of_uint_acc d acc)).
Proof.
  revert acc. induction d; intros acc; cbn [NilEmpty.string_of_uint];
    [done | ..];
    cbn [digits];
    match goal with
    | |- match digit_of ?c with _ => _ end = _ =>
        let v := eval vm_compute in (digit_of c) in
        change (digit_of c) with v
    end;
    cbn [Pos.of_uint_acc]; rewrite <- IHd; f_equal; lia.
Qed.

Lemma digits_zero (d : Decimal.uint) :
  digits 0 true (NilEmpty.string_of_uint d) = Some (Z.of_N (Pos.of_uint d)).
Proof.
  induction d; cbn [NilEmpty.string_of_uint Pos.of_uint]; [done | ..];
    cbn [digits];
    match goal with
    | |- match digit_of ?c with _ => _ end = _ =>
        let v := eval vm_compute in (digit_of c) in
        change (digit_of c) with v
    end;
    [exact IHd | ..]; cbn [Z.of_N]; by rewrite <- digits_acc.
Qed.

(** The characters of a printed number: digits, neither blank nor
    outside ASCII. *)
Lemma uint_chars_solid (d : Decimal.uint) :
  Forall (fun c => is_space c = false
                   /\ (Z.of_nat (nat_of_ascii c) <? 128) = true
                   /\ Ascii.eqb c "-" = false)
    (list_ascii_of_string (NilEmpty.string_of_uint d)).
Proof. induction d; cbn; constructor; done. Qed.

Lemma solid_is_ascii (s : string) :
  Forall (fun c => is_space c = false
                   /\ (Z.of_nat (nat_of_ascii c) <? 128) = true
                   /\ Ascii.eqb c "-" = false)
    (list_ascii_of_string s) ->
  is_ascii_str s = true /\ rstrip (lstrip s) = s /\ lacks "-" s = true.
Proof.
  intros H. assert (rstrip s = s /\ is_ascii_str s = true /\ lacks "-" s = true)
    as (Hr & Ha & Hl).
  { induction s as [|c r IH]; [done |].
    cbn [list_ascii_of_string] in H. inversion H as [|? ? (Hs & Hc & Hd) Hrest]; subst.
    destruct (IH Hrest) as (IHr & IHa & IHl). split; [| split].
    - cbn [rstrip]. rewrite IHr. destruct r; [by rewrite Hs | done].
    - unfold is_ascii_str in *. cbn [list_ascii_of_string forallb].
      by rewrite Hc, IHa.
    - cbn [lacks]. by rewrite Hd, IHl. }
  split; [done |]. split; [| done].
  destruct s as [|c r]; [done |]. cbn [lstrip].
  cbn [list_ascii_of_string] in H. inversion H as [|? ? (Hs & _) _]; subst.
  by rewrite Hs.
Qed.

Lemma nz_uint_nonempty (d : Decimal.uint) :
  exists c r, NilZero.string_of_uint d = String c r
              /\ Ascii.eqb c "-" = false /\ Ascii.eqb c "+" = false
              /\ digits 0 false (String c r) = digits 0 true (String c r).
Proof. destruct d; cbn; by eexists _, _. Qed.

Lemma nz_uint_solid (d : Decimal.uint) :
  Forall (fun c => is_space c = false
                   /\ (Z.of_nat (nat_of_ascii c) <? 128) = true
                   /\ Ascii.eqb c "-" = false)
    (list_ascii_of_string (NilZero.string_of_uint d)).
Proof.
  destruct d; [by repeat constructor | ..];
    match goal with
    | |- Forall _ (list_ascii_of_string (NilZero.string_of_uint ?x)) =>
        exact (uint_chars_solid x)
    end.
Qed.

Lemma nz_digits (d : Decimal.uint) :
  digits 0 false (NilZero.string_of_uint d) = Some (Z.of_uint d).
Proof.
  destruct (nz_uint_nonempty d) as (c & r & Hs & _ & _ & Hd).
  rewrite Hs, Hd, <- Hs. unfold Z.of_uint.
  destruct d; [done | ..];
    match goal with
    | |- digits 0 true (NilZero.string_of_uint ?x) = _ =>
        exact (digits_zero x)
    end.
Qed.

(** Parsing the text of a non-negative number gives the number back. *)
Lemma int_of_str_uint (d : Decimal.uint) :
  int_of_str (NilZero.string_of_uint d) = Ok (Z.of_uint d).
Proof.
  destruct (solid_is_ascii _ (nz_uint_solid d)) as (Ha & Hs & _).
  destruct (nz_uint_nonempty d) as (c & r & Hc & Hm & Hp & _).
  unfold int_of_str. rewrite Ha, Hs. cbn [negb].
  assert (forall A (k : bool * string -> A),
            k (match NilZero.string_of_uint d with
               | String "-" r' => (true, r')
               | String "+" r' => (false, r')
               | _ => (false, NilZero.string_of_uint d)
               end) = k (false, NilZero.string_of_uint d)) as Hk.
  { intros A k. rewrite Hc.
    destruct c as [[] [] [] [] [] [] [] []]; try done. }
  rewrite (Hk _ (fun x => let (neg, ds) := x in
                          match digits 0 false ds with
                          | Some v => Ok (if neg then - v else v)
                          | None => Raise ValueError
                          end)).
  by rewrite nz_digits.
Qed.

(** Reading back what was printed: [int(str(z)) = z]. *)
Lemma int_of_str_of_int (z : Z) : int_of_str (str_of_int z) = Ok z.
Proof.
  rewrite <- (DecimalZ.of_to z) at 2. unfold str_of_int.
  destruct (Z.to_int z) as [d | d]; cbn [NilZero.string_of_int Z.of_int].
  - apply int_of_str_uint.
  - destruct (solid_is_ascii _ (nz_uint_solid d)) as (Ha & Hs & _).
    destruct (nz_uint_nonempty d) as (c & r & Hc & _).
    unfold int_of_str.
    assert (is_ascii_str (String "-" (NilZero.string_of_uint d)) = true)
      as -> by (unfold is_ascii_str in *; cbn; exact Ha).
    assert (rstrip (lstrip (String "-" (NilZero.string_of_uint d)))
            = String "-" (NilZero.string_of_uint d)) as ->.
    { change (lstrip (String "-" (NilZero.string_of_uint d)))
        with (String "-" (NilZero.string_of_uint d)).
      cbn [rstrip].
      assert (rstrip (NilZero.string_of_uint d) = NilZero.string_of_uint d)
        as ->.
      { rewrite <- Hs at 2. f_equal. rewrite Hc. cbn [lstrip].
        pose proof (nz_uint_solid d) as Hall. rewrite Hc in Hall.
        cbn [list_ascii_of_string] in Hall.
        inversion Hall as [|? ? (Hsp & _) _]; subst. by rewrite Hsp. }
      by rewrite Hc. }
    cbn [negb]. by rewrite nz_digits.
Qed.

Lemma str_of_int_lacks_dash (z : Z) : 0 <= z -> lacks "-" (str_of_int z) = true.
Proof.
  intros Hz. unfold str_of_int.
  assert (exists d, Z.to_int z = Decimal.Pos d) as [d ->]
    by (destruct z; [by eexists | by eexists | lia]).
  cbn [NilZero.string_of_int].
  by destruct (solid_is_ascii _ (nz_uint_solid d)) as (_ & _ & Hl).
Qed.

(** ** Worker names and their segments *)

Lemma split_lacks (sep : ascii) (s : string) :
  lacks sep s = true -> split sep s = [s].
Proof.
  induction s as [|c r IH]; [done |]. cbn [lacks split].
  intros [Hc Hr]%andb_true_iff. apply negb_true_iff in Hc.
  by rewrite Hc, IH.
Qed.

Lemma split_app (sep : ascii) (a b : string) :
  split sep (a +:+ String sep b) = split sep a ++ split sep b.
Proof.
  induction a as [|c a IH].
  - change ("" +:+ String sep b) with (String sep b). cbn [split].
    by rewrite Ascii.eqb_refl.
  - change (String c a +:+ String sep b) with (String c (a +:+ String sep b)).
    cbn [split]. rewrite IH. destruct (Ascii.eqb c sep); [done |].
    by destruct (split_head sep a) as (x & r & ->).
Qed.

Lemma py_index_second_to_last {A} (l : list A) (a b : A) :
  py_index (l ++ [a; b]) (-2) = Ok a.
Proof.
  unfold py_index. cbn zeta. rewrite length_app. cbn [length].
  change (-2 <? 0) with true. cbn match.
  assert (-2 + Z.of_nat (length l + 2) = Z.of_nat (length l)) as -> by lia.
  destruct ((Z.of_nat (length l) <? 0)
            || (Z.of_nat (length l + 2) <=? Z.of_nat (length l))) eqn:Hc.
  - apply orb_true_iff in Hc as [Hc | Hc];
      [apply Z.ltb_lt in Hc | apply Z.leb_le in Hc]; lia.
  - rewrite Nat2Z.id. by rewrite lookup_app_r, Nat.sub_diag by lia.
Qed.

(** The second-to-last segment of a name with at least one dash. *)
Lemma second_to_last_segment (nm mid last : string) :
  (nm = mid +:+ "-" +:+ last
   \/ exists pre, nm = pre +:+ "-" +:+ mid +:+ "-" +:+ last) ->
  lacks "-" mid = true -> lacks "-" last = true ->
  py_index (split "-" nm) (-2) = Ok mid.
Proof.
  intros Hshape Hm Hl.
  assert (split "-" (mid +:+ "-" +:+ last) = [mid; last]) as Hml.
  { change (mid +:+ "-" +:+ last) with (mid +:+ String "-" last).
    by rewrite split_app, !split_lacks. }
  destruct Hshape as [-> | [pre ->]].
  - rewrite Hml. apply (py_index_second_to_last []).
  - change (pre +:+ "-" +:+ mid +:+ "-" +:+ last)
      with (pre +:+ String "-" (mid +:+ "-" +:+ last)).
    rewrite split_app, Hml. apply py_index_second_to_last.
Qed.

Section Names.

Variable E : env.
Hypothesis set_iter_perm : forall l, set_iter E l ≡ₚ l.

Lemma set_iter_one (x : hkey) : set_iter E [x] = [x].
Proof. apply Permutation_singleton_r. apply set_iter_perm. Qed.

(** A mapping with one descriptor: the names, then what the segment
    rule makes of the one name. *)
Lemma scale_down_one h v nm st :
  names v nm ->
  scale_down E (PDict [(h, v)]) st
  = match py_index (split "-" nm) (-2) with
    | Ok seg => stop_workers E [PStr seg] st
    | Raise e => (st, Raise e)
    end.
Proof.
  intros (d & -> & Hd).
  assert (names_of [(h, PDict d)] = Ok [HStr nm]) as Hnames
    by (unfold names_of; cbn; by rewrite Hd).
  assert (job_ids_of E [HStr nm]
          = res_map (fun seg => [HStr seg]) (py_index (split "-" nm) (-2)))
    as Hids.
  { unfold job_ids_of. rewrite set_iter_one. cbn [map_res job_id_of].
    by destruct (py_index (split "-" nm) (-2)). }
  unfold scale_down. erewrite bind_ok by (unfold lift; by rewrite Hnames).
  destruct (py_index (split "-" nm) (-2)) as [seg | e].
  - erewrite bind_ok by (unfold lift; by rewrite Hids).
    by rewrite set_iter_one.
  - by erewrite bind_raise by (unfold lift; by rewrite Hids).
Qed.

Lemma stop_workers_one_text seg st :
  stop_workers E [PStr seg] st
  = match int_of_str seg with
    | Ok z => stop_workers E [PInt z] st
    | Raise e => (st, Raise e)
    end.
Proof.
  unfold stop_workers. cbn [map_res py_int].
  destruct (int_of_str seg) as [z | e]; [done |].
  by erewrite bind_raise by (unfold lift; reflexivity).
Qed.

End Names.

(** X13. The name convention, both ways.  For a mapping with one worker
    whose name ends in [-mid-last] (or is [mid-last]), [scale_down] hands
    the segment [mid] to [stop_workers]; when [mid] is the decimal text of
    a slot number [z], as [job_script] prints it (of at most 640 digits,
    a length that no digit limit of the interpreter refuses), this is
    [stop_workers([z])]: the slot is read back exactly; when [mid] is
    ASCII text that [int] refuses, the call raises [ValueError] and
    nothing else happens. *)
Theorem scale_down_reads_second_to_last_segment (E : env) (st : state)
    (h : string) (v : pyval) (nm mid last : string) :
  (forall l, set_iter E l ≡ₚ l) ->
  names v nm ->
  (nm = mid +:+ "-" +:+ last
   \/ exists pre, nm = pre +:+ "-" +:+ mid +:+ "-" +:+ last) ->
  lacks "-" mid = true -> lacks "-" last = true ->
  scale_down E (PDict [(h, v)]) st = stop_workers E [PStr mid] st
  /\ (forall z, mid = str_of_int z -> (String.length mid <= 640)%nat ->
        scale_down E (PDict [(h, v)]) st = stop_workers E [PInt z] st)
  /\ (int_of_str mid = Raise ValueError ->
      scale_down E (PDict [(h, v)]) st = (st, Raise ValueError)).
Proof.
  intros Hperm Hv Hshape Hm Hl.
  assert (scale_down E (PDict [(h, v)]) st = stop_workers E [PStr mid] st)
    as Heq.
  { rewrite (scale_down_one E Hperm h v nm st Hv).
    by rewrite (second_to_last_segment nm mid last). }
  split; [done |]. rewrite Heq, stop_workers_one_text. split.
  - intros z -> _. by rewrite int_of_str_of_int.
  - by intros ->.
Qed.

(** X14. A worker name without any dash has no second-to-last segment:
    [scale_down] raises [IndexError] and leaves the state alone. *)
Theorem scale_down_name_without_dash (E : env) (st : state)
    (h : string) (v : pyval) (nm : string) :
  (forall l, set_iter E l ≡ₚ l) ->
  names v nm -> lacks "-" nm = true ->
  scale_down E (PDict [(h, v)]) st = (st, Raise IndexError).
Proof.
  intros Hperm Hv Hl. rewrite (scale_down_one E Hperm h v nm st Hv).
  by rewrite split_lacks.
Qed.

(** ** Teardown *)

Lemma values_of_keys (m : gmap Z string) (keys : list Z) (js : list string) :
  keys ≡ₚ (map_to_list m).*1 ->
  Forall2 (fun w j => m !! w = Some j) keys js ->
  js ≡ₚ (map_to_list m).*2.
Proof.
  intros Hperm Hall.
  assert (js = map (fun w => default "" (m !! w)) keys) as ->.
  { clear Hperm. induction Hall as [|w j ws js' Hw _ IH]; [done |].
    cbn. by rewrite Hw, IH. }
  change (map (fun w => default "" (m !! w)) keys)
    with ((fun w => default "" (m !! w)) <$> keys).
  rewrite Hperm.
  assert (forall l : list (Z * string),
            (forall k v, (k, v) ∈ l -> m !! k = Some v) ->
            (fun w => default "" (m !! w)) <$> l.*1 = l.*2) as Hmap.
  { induction l as [|[k v] l IH]; intros Hl; [done |].
    cbn. rewrite (Hl k v) by (by left). cbn. f_equal.
    apply IH. intros k' v' Hin. apply Hl. by right. }
  rewrite Hmap; [done |]. intros k v Hin. by apply elem_of_map_to_list.
Qed.

(** X15. Teardown cancels everything outstanding in one batch.  With
    an empty registry [__exit__] does nothing; otherwise (the cancel
    tool's diagnostics being decodable) it issues a single cancel call
    carrying the job of every registered slot, each once, and leaves the
    registry empty and the counter as it was. *)
Theorem exit_stops_every_slot (E : env)
    (dict_iter : gmap Z string -> list Z) (st : state) :
  (forall m, dict_iter m ≡ₚ (map_to_list m).*1) ->
  (jobs (self st) = ∅ -> __exit__ E dict_iter st = (st, Ok tt))
  /\ (jobs (self st) <> ∅ ->
      (forall tr js,
         utf8_valid (stderr (popen E tr (cancel_command (self st) :: js)))
         = true) ->
      exists js st',
        __exit__ E dict_iter st = (st', Ok tt)
        /\ jobs (self st') = ∅
        /\ n (self st') = n (self st)
        /\ js ≡ₚ (map_to_list (jobs (self st))).*2
        /\ spawns (trace st')
           = spawns (trace st) ++ [cancel_command (self st) :: js]).
Proof.
  intros Hperm. unfold __exit__. erewrite bind_ok by reflexivity.
  pose proof (Hperm (jobs (self st))) as Hkeys. split.
  - intros Hempty. rewrite Hempty, map_to_list_empty in Hkeys.
    apply Permutation_nil_r in Hkeys. rewrite Hempty, Hkeys. done.
  - intros Hne Herr.
    assert (forall w, w ∈ dict_iter (jobs (self st))
                      <-> is_Some (jobs (self st) !! w)) as Hin.
    { intros w. rewrite Hkeys, list_elem_of_fmap. split.
      - intros ([k v] & -> & Hkv). apply elem_of_map_to_list in Hkv. by eexists.
      - intros [v Hv]. exists (w, v). split; [done |].
        by apply elem_of_map_to_list. }
    destruct (stop_workers_registered E st (dict_iter (jobs (self st))))
      as (js & tr' & Hall & Hsp & Heq); [| by intros w Hw; apply Hin | done |].
    { intros Hnil. apply Hne. apply map_empty. intros w.
      destruct (jobs (self st) !! w) eqn:Hw; [| done].
      assert (w ∈ dict_iter (jobs (self st))) as Hw' by (apply Hin; by eexists).
      rewrite Hnil in Hw'. by apply elem_of_nil in Hw'. }
    exists js. eexists. split; [exact Heq |]. cbn [self jobs set_jobs n trace].
    split; [| split; [done |]; split; [by eapply values_of_keys |]].
    + apply map_empty. intros w. rewrite lookup_removed.
      destruct (decide (w ∈ dict_iter (jobs (self st)))) as [|Hout]; [done |].
      destruct (jobs (self st) !! w) eqn:Hw; [| done].
      exfalso. apply Hout, Hin. by eexists.
    + by rewrite spawns_app, Hsp.
Qed.

(** ** The constructor *)

Lemma command_template_renders dirname address a extra' :
  plain_args dirname address a extra' = true ->
  forall k, exists t,
    py_format (command_template dirname address a extra') [("n", PInt k)]
    = Ok t.
Proof.
  intros Hp k. destruct (plain_stem _ _ _ _ Hp) as (Hs & Ht & Hnm).
  destruct (name a) as [nm |] eqn:Hn.
  - rewrite (command_template_named _ _ _ _ nm) by done.
    unfold py_format. rewrite fmt_plain_prefix
      by (cbn in Hnm; by rewrite !pct_free_app, Hs, Hnm).
    rewrite fmt_placeholder, fmt_plain by done. by eexists.
  - rewrite command_template_unnamed by done. eexists.
    apply fmt_plain. by rewrite pct_free_app, Hs, Ht.
Qed.

(** X16. An adapter built by [__init__] from texts without a percent
    sign can render the script of every slot: whatever header is
    installed and wherever the counter stands, [job_script] does not
    raise. *)
Theorem constructed_adapter_always_renders (submit cancel : option string)
    (dirname address : string) (args : init_args) (a : adapter) :
  __init__ submit cancel dirname address args = Ok a ->
  plain_args dirname address args (extra args) = true ->
  opt_free (interface args) = true ->
  renders a
  /\ forall st, _command_template (self st) = _command_template a ->
       exists cmd,
         (job_script st).2
         = Ok (boilerplate (str_of_header (job_header (self st))) cmd).
Proof.
  intros Hinit Hp Hi.
  assert (exists extra',
            _command_template a = command_template dirname address args extra'
            /\ plain_args dirname address args extra' = true)
    as (extra' & Htpl & Hp').
  { revert Hinit. unfold __init__.
    destruct (negb (truthy cancel) || negb (truthy submit)); [done |].
    destruct (truthy (interface args)) eqn:Hti.
    - destruct (extra args) as [e |] eqn:He; [| done].
      cbn [res_bind]. intros [= <-].
      exists (Some (e +:+ " --interface  " +:+ default "" (interface args)
                      +:+ " ")).
      split; [reflexivity |].
      unfold plain_args in *. rewrite !andb_true_iff in *.
      destruct Hp as [[[[[? ?] ?] ?] ?] Hex]. repeat split; try done.
      destruct (interface args) as [i |]; [| done].
      change (default "" (Some i)) with i. cbn [opt_free] in *.
      by rewrite !pct_free_app, Hex, Hi.
    - cbn [res_bind]. intros [= <-]. by exists (extra args). }
  assert (renders a) as Hr.
  { intros z. rewrite Htpl. by apply command_template_renders. }
  split; [done |]. intros st Hst.
  rewrite job_script_boilerplate. cbn [snd]. rewrite Hst.
  destruct (Hr (n (self st) + 1)) as [cmd ->]. by exists cmd.
Qed.

(** ** The job identifier of a submission *)

Lemma dot_free_lacks (s : string) : dot_free s = lacks "." s.
Proof. induction s as [|c r IH]; [done |]. cbn. by rewrite IH. Qed.

Lemma py_index_zero {A} (x : A) (r : list A) : py_index (x :: r) 0 = Ok x.
Proof.
  unfold py_index. cbn zeta.
  destruct ((0 <? 0) || (Z.of_nat (length (x :: r)) <=? 0)) eqn:Hc; [| done].
  apply orb_true_iff in Hc as [Hc | Hc]; [discriminate |].
  apply Z.leb_le in Hc. cbn [length] in Hc. lia.
Qed.

(** X18. The job-id rule of [start_workers]: when the submit tool
    prints [<job>.<host>], or just [<job>], with no dot inside [<job>],
    the new slot [n+1] is registered for exactly the text [<job>]. *)
Theorem start_workers_registers_text_before_dot (E : env) (st : state)
    (job rest : string) :
  renders (self st) ->
  dot_free job = true ->
  (forall tr,
     utf8_valid (stderr (popen E tr [submit_command (self st);
                                     tmpfile E (trace st)])) = true
     /\ utf8_valid (stdout (popen E tr [submit_command (self st);
                                        tmpfile E (trace st)])) = true
     /\ (string_of_list_byte
           (stdout (popen E tr [submit_command (self st);
                                tmpfile E (trace st)])) = job
         \/ string_of_list_byte
              (stdout (popen E tr [submit_command (self st);
                                   tmpfile E (trace st)]))
            = job +:+ "." +:+ rest)) ->
  exists st',
    start_workers E 1 st = (st', Ok [n (self st) + 1])
    /\ jobs (self st') = <[n (self st) + 1 := job]> (jobs (self st))
    /\ n (self st') = n (self st) + 1.
Proof.
  intros Hr Hfree Hout. rewrite dot_free_lacks in Hfree.
  unfold start_workers. change (Z.to_nat 1) with 1%nat. cbn [start_loop].
  destruct (start_one_account E [] st)
    as (t1 & _ & _
        & [(e & _ & _ & [[_ Hbad] | (_ & _ & tr & p & -> & Hbad)])
          | (job' & tr & p & -> & _ & Hjob & _ & _ & _ & H)]).
  - destruct (rendered_ok (self (minted st))) as [text Ht]; [done |].
    by rewrite Ht in Hbad.
  - destruct (Hout tr) as (He & Ho & _). destruct Hbad; congruence.
  - erewrite bind_ok by exact H. eexists. split; [done |].
    cbn [self jobs set_jobs n minted set_n]. split; [| done].
    f_equal. destruct (Hout tr) as (_ & _ & [Ht | Ht]); rewrite Ht in Hjob.
    + rewrite split_lacks, py_index_zero in Hjob by done. congruence.
    + change (job +:+ "." +:+ rest) with (job +:+ String "." rest) in Hjob.
      rewrite split_app, split_lacks in Hjob by done.
      cbn [app] in Hjob. rewrite py_index_zero in Hjob. congruence.
Qed.

(** X19. A [scale_down] that fails on its argument or at the lookup is
    all or nothing.  [TypeError] (a descriptor that is not a mapping, a
    name that cannot be hashed), [KeyError] (a descriptor without a
    name, a slot that is not registered), [AttributeError] (a name that
    is not a text) and [IndexError] (a name without a dash) are raised
    with the state exactly as before: nothing logged, no call issued,
    the registry untouched. *)
Theorem scale_down_failure_is_atomic (E : env) (w : pyval) (st : state)
    (e : exn) :
  (scale_down E w st).2 = Raise e ->
  e = IndexError \/ e = KeyError \/ e = AttributeError \/ e = TypeError ->
  (scale_down E w st).1 = st.
Proof.
  intros Hraise He.
  assert (e <> UnicodeDecodeError) as Hne
    by (destruct He as [-> | [-> | [-> | ->]]]; done).
  clear He. revert Hraise Hne.
  destruct w as [| | | |d]; try done.
  destruct (names_of d) as [names | e'] eqn:Hnames.
  - destruct (job_ids_of E names) as [ids | e'] eqn:Hids.
    + assert (scale_down E (PDict d) st
              = stop_workers E (map hkey_val (set_iter E ids)) st) as ->.
      { unfold scale_down.
        erewrite bind_ok by (unfold lift; by rewrite Hnames).
        by erewrite bind_ok by (unfold lift; by rewrite Hids). }
      destruct (stop_workers_outcome E (map hkey_val (set_iter E ids)) st)
        as [[_ ->] | [(_ & e' & _ & _ & ->)
                     | (_ & zs & js & tr & p & _ & _ & _ & [[_ ->] | [_ ->]])]];
        cbn [fst snd]; try done.
      by intros [= <-].
    + assert (scale_down E (PDict d) st = (st, Raise e')) as ->; [| done].
      unfold scale_down.
      erewrite bind_ok by (unfold lift; by rewrite Hnames).
      by erewrite bind_raise by (unfold lift; by rewrite Hids).
  - assert (scale_down E (PDict d) st = (st, Raise e')) as ->; [| done].
    unfold scale_down.
    by erewrite bind_raise by (unfold lift; by rewrite Hnames).
Qed.

(** ** One script per slot *)

Lemma str_of_int_inj (a b : Z) : str_of_int a = str_of_int b -> a = b.
Proof.
  intros H. pose proof (int_of_str_of_int a) as Ha.
  rewrite H, int_of_str_of_int in Ha. by injection Ha.
Qed.

Lemma string_length_app (a b : string) :
  String.length (a +:+ b) = (String.length a + String.length b)%nat.
Proof.
  induction a as [|c a IH]; [done |].
  change (String c a +:+ b) with (String c (a +:+ b)). cbn. by rewrite IH.
Qed.

Lemma string_app_cancel_r (s1 s2 p : string) :
  s1 +:+ p = s2 +:+ p -> s1 = s2.
Proof.
  revert s2. induction s1 as [|c1 s1 IH]; intros [|c2 s2] H; [done | | |].
  - apply (f_equal String.length) in H.
    change ("" +:+ p) with p in H. rewrite string_length_app in H.
    cbn in H. lia.
  - apply (f_equal String.length) in H.
    change ("" +:+ p) with p in H. rewrite string_length_app in H.
    cbn in H. lia.
  - change (String c1 (s1 +:+ p) = String c2 (s2 +:+ p)) in H.
    injection H as -> H. f_equal. by apply IH.
Qed.

(** X20. A template built with a worker name gives every slot its own
    command line: from texts without a percent sign, two slot numbers
    that render to the same command are the same slot. *)
Theorem named_template_separates_slots (dirname address : string)
    (a : init_args) (extra' : option string) (nm : string) (k1 k2 : Z)
    (t : string) :
  plain_args dirname address a extra' = true ->
  name a = Some nm ->
  py_format (command_template dirname address a extra') [("n", PInt k1)]
  = Ok t ->
  py_format (command_template dirname address a extra') [("n", PInt k2)]
  = Ok t ->
  k1 = k2.
Proof.
  intros Hp Hn. destruct (plain_stem _ _ _ _ Hp) as (Hs & Ht & Hnm).
  rewrite Hn in Hnm. cbn [opt_free] in Hnm.
  rewrite (command_template_named _ _ _ _ nm) by done.
  assert (forall k,
            py_format ((stem dirname address a +:+ " --name " +:+ nm +:+ "-")
                       +:+ "%(n)d" +:+ tail_opts a extra') [("n", PInt k)]
            = Ok ((stem dirname address a +:+ " --name " +:+ nm +:+ "-")
                  +:+ str_of_int k +:+ tail_opts a extra')) as Hfmt.
  { intros k. unfold py_format.
    rewrite fmt_plain_prefix by (by rewrite !pct_free_app, Hs, Hnm).
    by rewrite fmt_placeholder, fmt_plain by done. }
  rewrite !Hfmt. intros [= <-] [= H].
  apply (inj (String.app _)) in H. apply string_app_cancel_r in H.
  symmetry. by apply str_of_int_inj.
Qed.

(** ** The further statements at work *)

Lemma calls_outputs_and_error_log_witness :
  exists ps st',
    Forall2 (fun cmd p => exists tr, p = popen steady tr cmd)
      [["qsub"; "a.sh"]; ["qsub"; "b.sh"]] ps
    /\ _calls steady [["qsub"; "a.sh"]; ["qsub"; "b.sh"]]
         (st0 (fresh None default_template))
       = (st', Ok (map stdout ps))
    /\ self st' = self (st0 (fresh None default_template))
    /\ errors (trace st')
       = errors (trace (st0 (fresh None default_template)))
         ++ flat_map complaint ps
    /\ spawns (trace st')
       = spawns (trace (st0 (fresh None default_template)))
         ++ [["qsub"; "a.sh"]; ["qsub"; "b.sh"]].
Proof.
  apply (calls_outputs_and_error_log steady
           [["qsub"; "a.sh"]; ["qsub"; "b.sh"]]
           (st0 (fresh None default_template))).
  intros tr cmd Hin. reflexivity.
Defined.

Lemma calls_bad_stderr_loses_the_batch_witness :
  exists st',
    _calls latin1 ([] ++ ["qsub"; "a.sh"] :: [["qsub"; "b.sh"]])
      (st0 (fresh None default_template))
    = (st', Raise UnicodeDecodeError)
    /\ self st' = self (st0 (fresh None default_template))
    /\ spawns (trace st')
       = spawns (trace (st0 (fresh None default_template)))
         ++ [] ++ ["qsub"; "a.sh"] :: [["qsub"; "b.sh"]].
Proof.
  apply (calls_bad_stderr_loses_the_batch latin1 [] [["qsub"; "b.sh"]]
           ["qsub"; "a.sh"] (st0 (fresh None default_template))).
  - intros tr cmd Hin. by apply elem_of_nil in Hin.
  - intros tr. reflexivity.
Defined.

Lemma stop_workers_failure_keeps_registry_witness :
  let st := st0 (set_jobs (fresh None default_template) two_jobs) in
  self (stop_workers latin1 [PInt 1; PInt 2] st).1 = self st
  /\ (UnicodeDecodeError = KeyError \/ UnicodeDecodeError = TypeError ->
      (stop_workers latin1 [PInt 1; PInt 2] st).1 = st)
  /\ (UnicodeDecodeError = UnicodeDecodeError ->
      exists js,
        spawns (trace (stop_workers latin1 [PInt 1; PInt 2] st).1)
        = spawns (trace st) ++ [cancel_command (self st) :: js]).
Proof.
  cbn zeta.
  apply (stop_workers_failure_keeps_registry latin1 [PInt 1; PInt 2]
           (st0 (set_jobs (fresh None default_template) two_jobs))
           UnicodeDecodeError).
  - reflexivity.
  - discriminate.
Defined.

Lemma stop_workers_twice_raises_witness :
  let st := st0 (set_jobs (fresh None default_template) two_jobs) in
  exists st',
    stop_workers pbs (map PInt [2]) st = (st', Ok tt)
    /\ stop_workers pbs (map PInt [2]) st' = (st', Raise KeyError).
Proof.
  cbn zeta.
  apply (stop_workers_twice_raises pbs
           (st0 (set_jobs (fresh None default_template) two_jobs)) [2]).
  - discriminate.
  - intros w Hw. apply list_elem_of_singleton in Hw as ->. by eexists.
  - intros tr js. reflexivity.
Defined.

Lemma start_workers_registers_new_slots_witness :
  let st := st0 (fresh (Some "#PBS -q batch") default_template) in
  exists st',
    start_workers steady 2 st = (st', Ok (slots_from (n (self st)) (Z.to_nat 2)))
    /\ n (self st') = n (self st) + Z.of_nat (Z.to_nat 2)
    /\ size (jobs (self st')) = (size (jobs (self st)) + Z.to_nat 2)%nat
    /\ (forall w, w ∉ slots_from (n (self st)) (Z.to_nat 2) ->
                  jobs (self st') !! w = jobs (self st) !! w)
    /\ (forall w, w ∈ slots_from (n (self st)) (Z.to_nat 2) ->
                  exists job, jobs (self st') !! w = Some job
                              /\ dot_free job = true)
    /\ consistent (self st').
Proof.
  cbn zeta.
  apply (start_workers_registers_new_slots steady
           (st0 (fresh (Some "#PBS -q batch") default_template)) 2).
  - intros tr argv. split; reflexivity.
  - intros z. eexists. reflexivity.
  - split; [done |]. intros w j Hw. cbn in Hw. by rewrite lookup_empty in Hw.
Defined.

Lemma start_workers_file_account_witness :
  let st := st0 (fresh (Some "#PBS -q batch") default_template) in
  (start_workers garbled 1 st).2 = Raise UnicodeDecodeError
  /\ opened (trace (start_workers garbled 1 st).1) = ["/tmp/job0.sh"]
  /\ deleted (trace (start_workers garbled 1 st).1) = []
  /\ exists tr',
       trace (start_workers garbled 1 st).1 = trace st ++ tr'
       /\ (length (opened tr') <= Z.to_nat 1)%nat
       /\ Forall (fun argv => exists fn, fn ∈ opened tr'
                                         /\ argv = [submit_command (self st); fn])
            (spawns tr')
       /\ (forall l,
             (start_workers garbled 1 st).2 = Ok l ->
             opened tr' = deleted tr' /\ length (opened tr') = Z.to_nat 1)
       /\ (opened tr' = deleted tr'
           \/ exists fn, opened tr' = deleted tr' ++ [fn])
       /\ (tmpfile_guards garbled = true -> opened tr' = deleted tr')
       /\ (tmpfile_guards garbled = false ->
           (start_workers garbled 1 st).2 = Raise UnicodeDecodeError ->
           exists fn, opened tr' = deleted tr' ++ [fn]).
Proof.
  cbn zeta. split; [vm_compute; reflexivity |].
  split; [vm_compute; reflexivity |]. split; [vm_compute; reflexivity |].
  apply (start_workers_file_account garbled
           (st0 (fresh (Some "#PBS -q batch") default_template)) 1).
Defined.

Lemma registry_stays_consistent_witness :
  consistent
    (self (run steady [StartWorkers 2; StopWorkers [PInt 1]; ScaleUp 3]
             (st0 (fresh (Some "#PBS -q batch") default_template))).1).
Proof.
  apply (proj2 (registry_stays_consistent steady
                  [StartWorkers 2; StopWorkers [PInt 1]; ScaleUp 3]
                  (st0 (fresh (Some "#PBS -q batch") default_template))
                  None None "" "" default_args None)).
  split; [done |]. intros w j Hw. cbn in Hw. by rewrite lookup_empty in Hw.
Defined.


Lemma start_then_stop_restores_registry_witness :
  let st := st0 (fresh (Some "#PBS -q batch") default_template) in
  exists st1 l st2,
    start_workers steady 2 st = (st1, Ok l)
    /\ stop_workers steady (map PInt l) st1 = (st2, Ok tt)
    /\ jobs (self st2) = jobs (self st)
    /\ n (self st2) = n (self st) + Z.of_nat (Z.to_nat 2).
Proof.
  cbn zeta.
  apply (start_then_stop_restores_registry steady
           (st0 (fresh (Some "#PBS -q batch") default_template)) 2).
  - intros tr argv. split; reflexivity.
  - intros z. eexists. reflexivity.
  - split; [done |]. intros w j Hw. cbn in Hw. by rewrite lookup_empty in Hw.
Defined.

Lemma scale_down_reads_second_to_last_segment_witness :
  let st := st0 (set_jobs (fresh None default_template) {[7 := "107"]}) in
  let v := PDict [("name", PStr "dask-worker-7-0")] in
  scale_down pbs (PDict [("w1", v)]) st = stop_workers pbs [PStr "7"] st
  /\ (forall z, "7" = str_of_int z -> (String.length "7" <= 640)%nat ->
        scale_down pbs (PDict [("w1", v)]) st = stop_workers pbs [PInt z] st)
  /\ (int_of_str "7" = Raise ValueError ->
      scale_down pbs (PDict [("w1", v)]) st = (st, Raise ValueError)).
Proof.
  cbn zeta.
  apply (scale_down_reads_second_to_last_segment pbs
           (st0 (set_jobs (fresh None default_template) {[7 := "107"]}))
           "w1" (PDict [("name", PStr "dask-worker-7-0")])
           "dask-worker-7-0" "7" "0").
  - intros l. reflexivity.
  - eexists. split; reflexivity.
  - right. exists "dask-worker". reflexivity.
  - reflexivity.
  - reflexivity.
Defined.

Lemma scale_down_name_without_dash_witness :
  scale_down pbs (PDict [("w1", PDict [("name", PStr "worker")])])
    (st0 (fresh None default_template))
  = (st0 (fresh None default_template), Raise IndexError).
Proof.
  apply (scale_down_name_without_dash pbs (st0 (fresh None default_template))
           "w1" (PDict [("name", PStr "worker")]) "worker").
  - intros l. reflexivity.
  - eexists. split; reflexivity.
  - reflexivity.
Defined.

Lemma exit_stops_every_slot_witness :
  let st := st0 (set_jobs (fresh None default_template) two_jobs) in
  exists js st',
    __exit__ pbs (fun m => (map_to_list m).*1) st = (st', Ok tt)
    /\ jobs (self st') = ∅
    /\ n (self st') = n (self st)
    /\ js ≡ₚ (map_to_list (jobs (self st))).*2
    /\ spawns (trace st')
       = spawns (trace st) ++ [cancel_command (self st) :: js].
Proof.
  cbn zeta.
  apply (proj2 (exit_stops_every_slot pbs (fun m => (map_to_list m).*1)
                  (st0 (set_jobs (fresh None default_template) two_jobs))
                  (fun m => Permutation_refl _))).
  - intros H. apply (f_equal (fun m : gmap Z string => m !! 1)) in H.
    vm_compute in H. discriminate H.
  - intros tr js. reflexivity.
Defined.

Lemma constructed_adapter_always_renders_witness :
  renders (fresh None default_template)
  /\ forall st,
       _command_template (self st)
       = _command_template (fresh None default_template) ->
       exists cmd,
         (job_script st).2
         = Ok (boilerplate (str_of_header (job_header (self st))) cmd).
Proof.
  apply (constructed_adapter_always_renders (Some "qsub") (Some "qdel")
           "/usr/bin" "tcp://10.0.0.5:8786" default_args
           (fresh None default_template)); reflexivity.
Defined.

Lemma start_workers_registers_text_before_dot_witness :
  let st := st0 (fresh (Some "#PBS -q batch") default_template) in
  exists st',
    start_workers steady 1 st = (st', Ok [n (self st) + 1])
    /\ jobs (self st') = <[n (self st) + 1 := "4242"]> (jobs (self st))
    /\ n (self st') = n (self st) + 1.
Proof.
  cbn zeta.
  apply (start_workers_registers_text_before_dot steady
           (st0 (fresh (Some "#PBS -q batch") default_template))
           "4242" "headnode").
  - intros z. eexists. reflexivity.
  - reflexivity.
  - intros tr. split; [reflexivity |]. split; [reflexivity |].
    right. reflexivity.
Defined.

Lemma scale_down_failure_is_atomic_witness :
  (scale_down pbs example_workers (st0 (fresh None default_template))).1
  = st0 (fresh None default_template).
Proof.
  apply (scale_down_failure_is_atomic pbs example_workers
           (st0 (fresh None default_template)) KeyError).
  - reflexivity.
  - right. left. reflexivity.
Defined.

Lemma named_template_separates_slots_witness : (3 : Z) = 3.
Proof.
  apply (named_template_separates_slots "/usr/bin" "tcp://10.0.0.5:8786"
           default_args (Some "") "dask-worker" 3 3
           ("/usr/bin/dask-worker tcp://10.0.0.5:8786 --nthreads 4"
            +:+ " --nprocs 6 --memory-limit 16GB --name dask-worker-3"
            +:+ " --death-timeout 60")); reflexivity.
Defined.
